(** * Immich image entities for Home Assistant: model and properties

    A shallow embedding of [custom_components/immich/hub.py] (the API client
    [ImmichHub]) and [custom_components/immich/image.py] (the polling image
    entities), followed by the properties of the candidate cache, of the
    selection and update loop, and of the response filters.

    Python values decoded from JSON are kept dynamically typed ([json]), with
    the exceptions Python raises on an ill-typed operation written out.
    Coroutines run to completion one after the other, the tasks of a
    gathering all of them and in the order of their list; everything the
    program asks of its surroundings (clock, HTTP transport, random generator,
    and which of the failing tasks of a gathering fails first in time) is
    answered by a [world], and everything it does to them is recorded in a
    trace. *)

From Stdlib Require Import ZArith String Ascii.
From stdpp Require Import base numbers option list strings gmap sets.

Set Warnings "-register-all,-clear-no-such-hyp".
Local Open Scope string_scope.
Local Open Scope Z_scope.

(** ** Values decoded from JSON *)

Inductive json : Type :=
| JNull
| JBool (b : bool)
| JNum (n : Z)
| JStr (s : string)
| JList (l : list json)
| JObj (d : list (string * json)).

(** A Python [dict] with string keys: its items in insertion order, every key
    at most once. *)
Abbreviation pydict := (list (string * json)).

Definition bytes := list Byte.byte.

Module Py.

(** Exceptions. [ClientError] stands for [aiohttp.ClientError] and its
    subclasses, [ForeignError] for any other exception that the transport or
    the decoder raises (a timeout, a JSON syntax error). *)
Inductive exn : Type :=
| ClientError | ForeignError
| CannotConnect | ApiError
| TypeError | AttributeError | KeyError.

Inductive result (A : Type) : Type :=
| Ok (a : A)
| Raise (e : exn).
Arguments Ok {A} a.
Arguments Raise {A} e.

Definition rbind {A B} (r : result A) (k : A → result B) : result B :=
  match r with Ok a => k a | Raise e => Raise e end.

(** *** Dictionaries *)

Fixpoint dict_get (k : string) (d : pydict) : option json :=
  match d with
  | [] => None
  | (k', v) :: d' => if String.eqb k k' then Some v else dict_get k d'
  end.

(** [d[k] = v]: an existing key keeps its place, a new one goes last. *)
Fixpoint dict_set (k : string) (v : json) (d : pydict) : pydict :=
  match d with
  | [] => [(k, v)]
  | (k', v') :: d' =>
      if String.eqb k k' then (k', v) :: d' else (k', v') :: dict_set k v d'
  end.

(** [{**d1, **d2}] *)
Definition dict_merge (d1 d2 : pydict) : pydict :=
  fold_left (λ acc kv, dict_set kv.1 kv.2 acc) d2 d1.

(** [{k: v for k, v in d.items() if k != key}] *)
Definition dict_without (key : string) (d : pydict) : pydict :=
  List.filter (λ kv, negb (String.eqb kv.1 key)) d.

(** *** Operations on dynamically typed values *)

Definition truthy (v : json) : bool :=
  match v with
  | JNull => false
  | JBool b => b
  | JNum n => negb (n =? 0)
  | JStr s => negb (String.eqb s "")
  | JList l => match l with [] => false | _ => true end
  | JObj d => match d with [] => false | _ => true end
  end.

(** [v == s] for a string literal [s] *)
Definition eq_str (v : json) (s : string) : bool :=
  match v with JStr s' => String.eqb s' s | _ => false end.

Definition is_substring (needle hay : string) : bool :=
  match String.index 0 needle hay with Some _ => true | None => false end.

(** [key in v] *)
Definition contains (key : string) (v : json) : result bool :=
  match v with
  | JObj d => Ok (bool_decide (is_Some (dict_get key d)))
  | JList l => Ok (existsb (λ x, eq_str x key) l)
  | JStr s => Ok (is_substring key s)
  | JNull | JBool _ | JNum _ => Raise TypeError
  end.

(** [v[key]] for a string [key] *)
Definition subscript (v : json) (key : string) : result json :=
  match v with
  | JObj d => match dict_get key d with Some x => Ok x | None => Raise KeyError end
  | JList _ | JStr _ | JNull | JBool _ | JNum _ => Raise TypeError
  end.

Definition isinstance_list (v : json) : bool :=
  match v with JList _ => true | _ => false end.

Definition isinstance_dict (v : json) : bool :=
  match v with JObj _ => true | _ => false end.

(** [v.get(key, default)]: only a [dict] has the method. *)
Definition get (v : json) (key : string) (dflt : json) : result json :=
  match v with
  | JObj d => Ok (default dflt (dict_get key d))
  | _ => Raise AttributeError
  end.

(** The items a [for] loop over [v] visits. *)
Definition iter (v : json) : result (list json) :=
  match v with
  | JList l => Ok l
  | JStr s => Ok ((λ c, JStr (String c EmptyString)) <$> list_ascii_of_string s)
  | JObj d => Ok ((λ kv, JStr kv.1) <$> d)
  | JNull | JBool _ | JNum _ => Raise TypeError
  end.

(** [str.lower] on code points below 256: the letters A-Z and the
    upper-case letters of Latin-1 (all of C0-DE but the sign D7). *)
Definition lower_char (c : ascii) : ascii :=
  let n := nat_of_ascii c in
  if ((65 <=? n) && (n <=? 90))%nat then ascii_of_nat (n + 32)
  else if ((192 <=? n) && (n <=? 222) && negb (n =? 215))%nat
       then ascii_of_nat (n + 32)
  else c.

Fixpoint lower_string (s : string) : string :=
  match s with
  | EmptyString => EmptyString
  | String c s' => String (lower_char c) (lower_string s')
  end.

(** [v.lower()]: only a [str] has the method. *)
Definition lower (v : json) : result string :=
  match v with
  | JStr s => Ok (lower_string s)
  | _ => Raise AttributeError
  end.

End Py.
Import Py.

#[global] Instance result_ret : MRet result := @Ok.
#[global] Instance result_bind : MBind result := λ A B k r, rbind r k.

(** ** The surroundings: transport, clock, random generator *)

(** [urljoin(host, path)] for an absolute [path], kept symbolic. *)
Record url : Type := urljoin { base : string; path : string }.

Inductive verb : Type := GET | POST.

Inductive content : Type :=
| NoBody
| JsonBody (d : pydict)                   (* [json=...] *)
| FormBody (d : list (string * string)).  (* [data=...] *)

Record request : Type := Request {
  req_verb : verb;
  req_url : url;
  req_headers : list (string * string);
  req_body : content }.

(** What the transport may do instead of answering. *)
Inductive fault : Type :=
| ClientFault   (* raises [aiohttp.ClientError] or a subclass of it *)
| OtherFault.   (* raises anything else *)

Inductive io (A : Type) : Type :=
| Got (a : A)
| Fails (f : fault).
Arguments Got {A} a.
Arguments Fails {A} f.

(** An [aiohttp.ClientResponse]: status line and declared content type are at
    hand; each way of reading the body awaits the transport once more. *)
Record response : Type := Response {
  status : Z;
  content_type : string;
  text : io string;
  read : io bytes;
  json_of : io json }.

Record world : Type := World {
  (** the k-th value of [datetime.now()], in microseconds *)
  datetime_now : nat → Z;
  (** the transport's answer to the k-th request *)
  transport : nat → request → io response;
  (** the k-th random draw; [random.choice] reduces it below its bound *)
  random_draw : nat → nat;
  (** in a gathering begun after k requests, which of the tasks that fail
      fails first in time: its place among them, reduced below their number *)
  first_failure : nat → nat }.

(** ** Entities *)

Record ImmichHub : Type := Hub { host : string; api_key : string }.

(** The three concrete classes, with the attributes their [__init__] adds to
    those of [BaseImmichImage]. *)
Inductive image_class : Type :=
| ImmichImageFavorite
| ImmichImageAlbum (_album_id album_name : string)
| ImmichImageSearch (_search_payload : pydict) (unique_id name : string).

Record entity : Type := Entity {
  class_of : image_class;
  hub : ImmichHub;
  _current_image_bytes : option bytes;
  _cached_available_asset_ids : option (list string);
  _available_asset_ids_last_updated : option Z;
  _attr_extra_state_attributes : gmap string json;
  _attr_image_last_updated : option Z }.

(** [BaseImmichImage.__init__] on top of the class attributes *)
Definition new_entity (c : image_class) (h : ImmichHub) : entity :=
  {| class_of := c; hub := h;
     _current_image_bytes := None;
     _cached_available_asset_ids := None;
     _available_asset_ids_last_updated := None;
     _attr_extra_state_attributes := ∅;
     _attr_image_last_updated := None |}.

Definition set_cache (ids : option (list string)) (e : entity) : entity :=
  {| class_of := class_of e; hub := hub e;
     _current_image_bytes := _current_image_bytes e;
     _cached_available_asset_ids := ids;
     _available_asset_ids_last_updated := _available_asset_ids_last_updated e;
     _attr_extra_state_attributes := _attr_extra_state_attributes e;
     _attr_image_last_updated := _attr_image_last_updated e |}.

Definition set_cache_stamp (t : Z) (e : entity) : entity :=
  {| class_of := class_of e; hub := hub e;
     _current_image_bytes := _current_image_bytes e;
     _cached_available_asset_ids := _cached_available_asset_ids e;
     _available_asset_ids_last_updated := Some t;
     _attr_extra_state_attributes := _attr_extra_state_attributes e;
     _attr_image_last_updated := _attr_image_last_updated e |}.

Definition set_attribute (k : string) (v : json) (e : entity) : entity :=
  {| class_of := class_of e; hub := hub e;
     _current_image_bytes := _current_image_bytes e;
     _cached_available_asset_ids := _cached_available_asset_ids e;
     _available_asset_ids_last_updated := _available_asset_ids_last_updated e;
     _attr_extra_state_attributes := <[k := v]> (_attr_extra_state_attributes e);
     _attr_image_last_updated := _attr_image_last_updated e |}.

Definition set_image (b : bytes) (e : entity) : entity :=
  {| class_of := class_of e; hub := hub e;
     _current_image_bytes := Some b;
     _cached_available_asset_ids := _cached_available_asset_ids e;
     _available_asset_ids_last_updated := _available_asset_ids_last_updated e;
     _attr_extra_state_attributes := _attr_extra_state_attributes e;
     _attr_image_last_updated := _attr_image_last_updated e |}.

Definition set_image_stamp (t : Z) (e : entity) : entity :=
  {| class_of := class_of e; hub := hub e;
     _current_image_bytes := _current_image_bytes e;
     _cached_available_asset_ids := _cached_available_asset_ids e;
     _available_asset_ids_last_updated := _available_asset_ids_last_updated e;
     _attr_extra_state_attributes := _attr_extra_state_attributes e;
     _attr_image_last_updated := Some t |}.

(** What the host reads: image, attributes, time of the last update. *)
Definition displayed (e : entity) : option bytes * gmap string json * option Z :=
  (_current_image_bytes e, _attr_extra_state_attributes e,
   _attr_image_last_updated e).

(** ** Running state and the monad of coroutines *)

Inductive level : Type := DEBUG | ERROR.

Inductive event : Type :=
| EvLog (l : level) (msg : string)
| EvRequest (r : request)
| EvSleep (seconds : Z)
| EvWriteState.

Record sys : Type := Sys {
  self : entity;
  clock_reads : nat;       (* readings of the clock so far *)
  requests : nat;          (* requests sent so far *)
  draws : nat;             (* random draws so far *)
  trace : list event }.    (* what was done, latest first *)

Definition M (A : Type) : Type := sys → result A * sys.

#[global] Instance M_ret : MRet M := λ A a s, (Ok a, s).
#[global] Instance M_bind : MBind M := λ A B k m s,
  match m s with
  | (Ok a, s') => k a s'
  | (Raise e, s') => (Raise e, s')
  end.

Definition raise {A} (e : exn) : M A := λ s, (Raise e, s).
Definition lift {A} (r : result A) : M A := λ s, (r, s).

Definition emit (ev : event) : M unit := λ s,
  (Ok (), {| self := self s; clock_reads := clock_reads s;
             requests := requests s; draws := draws s;
             trace := ev :: trace s |}).

Definition log (l : level) (msg : string) : M unit := emit (EvLog l msg).

Definition get_self : M entity := λ s, (Ok (self s), s).

Definition modify_self (f : entity → entity) : M unit := λ s,
  (Ok (), {| self := f (self s); clock_reads := clock_reads s;
             requests := requests s; draws := draws s; trace := trace s |}).

Definition exn_of_fault (f : fault) : exn :=
  match f with ClientFault => ClientError | OtherFault => ForeignError end.

(** Awaiting something the transport delivers. *)
Definition await {A} (x : io A) : M A :=
  lift (match x with Got a => Ok a | Fails f => Raise (exn_of_fault f) end).

(** [asyncio.sleep(seconds)] *)
Definition sleep (seconds : Z) : M unit := emit (EvSleep seconds).

(** [try: m  except aiohttp.ClientError: log; raise CannotConnect] *)
Definition except_ClientError {A} (m : M A) : M A := λ s,
  match m s with
  | (Raise ClientError, s') =>
      (log ERROR "Error connecting to the API: %s";; raise CannotConnect) s'
  | other => other
  end.

Section World.

Variable W : world.

(** [datetime.now()] *)
Definition now : M Z := λ s,
  (Ok (datetime_now W (clock_reads s)),
   {| self := self s; clock_reads := S (clock_reads s);
      requests := requests s; draws := draws s; trace := trace s |}).

(** [session.get(...)] or [session.post(...)] in a fresh session: the
    request goes out, and the transport answers or fails. *)
Definition send (r : request) : M response := λ s,
  let s' := {| self := self s; clock_reads := clock_reads s;
               requests := S (requests s); draws := draws s;
               trace := EvRequest r :: trace s |} in
  match transport W (requests s) r with
  | Got resp => (Ok resp, s')
  | Fails f => (Raise (exn_of_fault f), s')
  end.

(** [random.choice(l)] on a non-empty list: [l[randbelow(len(l))]] *)
Definition random_choice (l : list string) : M string := λ s,
  (Ok (nth (random_draw W (draws s) `mod` length l)%nat l ""),
   {| self := self s; clock_reads := clock_reads s;
      requests := requests s; draws := S (draws s); trace := trace s |}).

End World.

(** ** hub.py: the API client *)

Definition _HEADER_API_KEY : string := "x-api-key".

Definition _ALLOWED_MIME_TYPES : list string := ["image/png"; "image/jpeg"].

(** [[a for a in items if keep(a)]], stopping at the first exception *)
Fixpoint comprehension (keep : json → result bool) (items : list json)
  : result (list json) :=
  match items with
  | [] => Ok []
  | a :: rest =>
      k ← keep a;
      kept ← comprehension keep rest;
      Ok (if k : bool then a :: kept else kept)
  end.

(** [[f(a) for a in items]], stopping at the first exception *)
Fixpoint for_each {A B} (f : A → result B) (items : list A) : result (list B) :=
  match items with
  | [] => Ok []
  | a :: rest => b ← f a; bs ← for_each f rest; Ok (b :: bs)
  end.

Module Hub.

(** [asset["type"] == "IMAGE"] *)
Definition is_image (asset : json) : result bool :=
  t ← subscript asset "type"; Ok (eq_str t "IMAGE").

(** [[asset for asset in assets if asset["type"] == "IMAGE"]] *)
Definition filtered_assets (assets : json) : result (list json) :=
  items ← iter assets; comprehension is_image items.

(** The tolerant extractor of [search_images]; [None] is its [else] branch. *)
Definition extract_assets (data : json) : result (option json) :=
  has_items ← contains "items" data;
  flat ← (if has_items : bool
          then v ← subscript data "items"; Ok (isinstance_list v)
          else Ok false);
  if flat : bool then
    v ← subscript data "items"; Ok (Some v)
  else
    has_assets ← contains "assets" data;
    nested ← (if has_assets : bool
              then v ← subscript data "assets"; Ok (isinstance_dict v)
              else Ok false);
    if nested : bool then
      a ← subscript data "assets";
      v ← get a "items" (JList []);
      Ok (Some v)
    else Ok None.

Definition allowed : list string :=
  ["image/jpeg"; "image/jpg"; "image/png"; "image/webp"; "image/heic";
   "image/heif"].

Definition _mtype (asset : json) : result string :=
  legacy ← get asset "mimeType" (JStr "");
  m ← get asset "originalMimeType" legacy;
  lower m.

(** [a.get("type") == "IMAGE" and _mtype(a) in allowed] *)
Definition keep (a : json) : result bool :=
  t ← get a "type" JNull;
  if eq_str t "IMAGE"
  then m ← _mtype a; Ok (bool_decide (m ∈ allowed))
  else Ok false.

(** The part of [search_images] after the response body is decoded. *)
Definition select_images (data : json) : result (option (list json)) :=
  found ← extract_assets data;
  match found with
  | None => Ok None
  | Some assets => items ← iter assets; l ← comprehension keep items; Ok (Some l)
  end.

Section Client.

Variable W : world.
Variable h : ImmichHub.

Definition json_headers : list (string * string) :=
  [("Accept", "application/json"); (_HEADER_API_KEY, api_key h)].

Definition asset_info_request (asset_id : string) : request :=
  {| req_verb := GET;
     req_url := urljoin (host h) ("/api/assets/" +:+ asset_id);
     req_headers := json_headers;
     req_body := NoBody |}.

Definition get_asset_info (asset_id : string) : M json :=
  except_ClientError (
    response ← send W (asset_info_request asset_id);
    if bool_decide (status response ≠ 200) then
      raw_result ← await (text response);
      log ERROR "Error from API: body=%s";;
      raise ApiError
    else
      asset_info ← await (json_of response);
      mret asset_info).

Definition download_request (asset_id : string) : request :=
  {| req_verb := GET;
     req_url := urljoin (host h) ("/api/assets/" +:+ asset_id +:+ "/original");
     req_headers := [(_HEADER_API_KEY, api_key h)];
     req_body := NoBody |}.

Definition download_asset (asset_id : string) : M (option bytes) :=
  except_ClientError (
    response ← send W (download_request asset_id);
    if bool_decide (status response ≠ 200) then
      log ERROR "Error from API: status=%d";;
      mret None
    else if bool_decide (content_type response ∉ _ALLOWED_MIME_TYPES) then
      log ERROR "MIME type is not supported: %s";;
      mret None
    else
      b ← await (read response);
      mret (Some b)).

Definition list_favorite_images : M (list json) :=
  except_ClientError (
    response ← send W {| req_verb := POST;
                         req_url := urljoin (host h) "/api/search/metadata";
                         req_headers := json_headers;
                         req_body := FormBody [("isFavorite", "true")] |};
    if bool_decide (status response ≠ 200) then
      raw_result ← await (text response);
      log ERROR "Error from API: body=%s";;
      raise ApiError
    else
      favorites ← await (json_of response);
      assets ← lift (a ← subscript favorites "assets"; subscript a "items");
      lift (filtered_assets assets)).

Definition search_request (payload : pydict) : request :=
  let full_payload :=
    dict_merge [("type", JStr "IMAGE"); ("size", JNum 400)] payload in
  {| req_verb := POST;
     req_url := urljoin (host h) "/api/search/metadata";
     req_headers := json_headers;
     req_body := JsonBody full_payload |}.

Definition search_images (payload : pydict) : M (list json) :=
  log DEBUG "search_images called with %s";;
  resp ← send W (search_request payload);
  data ← (if bool_decide (status resp ≠ 200) then
            body ← await (text resp);
            log ERROR "Immich search error: %s";;
            raise ApiError
          else await (json_of resp));
  selected ← lift (select_images data);
  match selected with
  | None => log ERROR "Unexpected search response: %s";; mret []
  | Some images => mret images
  end.

Definition list_album_images (album_id : string) : M (list json) :=
  except_ClientError (
    response ← send W {| req_verb := GET;
                         req_url := urljoin (host h) ("/api/albums/" +:+ album_id);
                         req_headers := json_headers;
                         req_body := NoBody |};
    if bool_decide (status response ≠ 200) then
      raw_result ← await (text response);
      log ERROR "Error from API: body=%s";;
      raise ApiError
    else
      album_info ← await (json_of response);
      assets ← lift (subscript album_info "assets");
      lift (filtered_assets assets)).

Definition authenticate_request : request :=
  {| req_verb := POST;
     req_url := urljoin (host h) "/api/auth/validateToken";
     req_headers := json_headers;
     req_body := NoBody |}.

Definition authenticate : M bool :=
  except_ClientError (
    response ← send W authenticate_request;
    if bool_decide (status response ≠ 200) then
      raw_result ← await (text response);
      log ERROR "Error from API: body=%s";;
      mret false
    else
      auth_result ← await (json_of response);
      auth_status ← lift (get auth_result "authStatus" JNull);
      if negb (truthy auth_status) then
        raw_result ← await (text response);
        log ERROR "Error from API: body=%s";;
        mret false
      else mret true).

Definition user_info_request : request :=
  {| req_verb := GET;
     req_url := urljoin (host h) "/api/users/me";
     req_headers := json_headers;
     req_body := NoBody |}.

Definition get_my_user_info : M json :=
  except_ClientError (
    response ← send W user_info_request;
    if bool_decide (status response ≠ 200) then
      raw_result ← await (text response);
      log ERROR "Error from API: body=%s";;
      raise ApiError
    else
      user_info ← await (json_of response);
      mret user_info).

Definition albums_request : request :=
  {| req_verb := GET;
     req_url := urljoin (host h) "/api/albums";
     req_headers := json_headers;
     req_body := NoBody |}.

Definition list_all_albums : M json :=
  except_ClientError (
    response ← send W albums_request;
    if bool_decide (status response ≠ 200) then
      raw_result ← await (text response);
      log ERROR "Error from API: body=%s";;
      raise ApiError
    else
      album_list ← await (json_of response);
      mret album_list).

End Client.

End Hub.

(** ** image.py: the polling image entities *)

(** [timedelta(hours=8)], in microseconds *)
Definition _ID_LIST_REFRESH_INTERVAL : Z := 8 * 3600 * 1000000.

(** [a["id"]]. The source declares asset ids as [str]; the model stops with
    [TypeError] at an [id] that is not a JSON string, where the source would
    carry the ill-typed value on. *)
Definition id_of (a : json) : result string :=
  v ← subscript a "id";
  match v with JStr s => Ok s | _ => Raise TypeError end.

(** [x or ""] *)
Definition or_empty (v : json) : json := if truthy v then v else JStr "".

(** How one turn of the [while] loop of [_load_and_cache_next_image] ends. *)
Inductive turn : Type :=
| Returned      (* [return]: no asset id *)
| Continued     (* [continue] after the cool-down *)
| Loaded.       (* body completed; [asset_bytes] now ends the loop *)

(** Whether the loop was left within the turns allowed to it. *)
Inductive run : Type := Finished | StillLooping.

Section Image.

Variable W : world.

(** [BaseImmichImage._refresh_available_asset_ids]. The attribute
    [_search_payload] exists only on an [ImmichImageSearch]. *)
Definition BaseImmichImage_refresh_available_asset_ids
  : M (option (list string)) :=
  e ← get_self;
  _search_payload ← match class_of e with
                    | ImmichImageSearch p _ _ => mret p
                    | ImmichImageFavorite | ImmichImageAlbum _ _ =>
                        raise AttributeError
                    end;
  assets ← Hub.search_images W (hub e) _search_payload;
  ids ← lift (for_each id_of assets);
  mret (Some ids).

Definition ImmichImageFavorite_refresh_available_asset_ids
  : M (option (list string)) :=
  e ← get_self;
  images ← Hub.list_favorite_images W (hub e);
  ids ← lift (for_each id_of images);
  mret (Some ids).

(** The tasks of a gathering, every one of them: started in the order of the
    list and none cancelled, each runs to its end, whether another fails or
    not, and what it does is recorded. *)
Fixpoint run_all {A} (tasks : list (M A)) (s : sys) : list (result A) * sys :=
  match tasks with
  | [] => ([], s)
  | t :: rest =>
      let (r, s1) := t s in
      let (rs, s2) := run_all rest s1 in
      (r :: rs, s2)
  end.

Definition failures {A} (outcomes : list (result A)) : list exn :=
  omap (λ r, match r with Raise e => Some e | Ok _ => None end) outcomes.

Definition successes {A} (outcomes : list (result A)) : list A :=
  omap (λ r, match r with Ok a => Some a | Raise _ => None end) outcomes.

(** [asyncio.gather] over the tasks. When all return, their results come in
    the order of the tasks. When some raise, the caller gets the exception of
    the task that fails first in time, which is for the world to tell; the
    other tasks run on, and what they do is recorded with the gathering. *)
Definition gather {A} (tasks : list (M A)) : M (list A) := λ s,
  let (outcomes, s') := run_all tasks s in
  match failures outcomes with
  | [] => (Ok (successes outcomes), s')
  | e :: es =>
      (Raise (nth (first_failure W (requests s) `mod` length (e :: es))%nat
                (e :: es) e), s')
  end.

(** [all_ids.update(a["id"] for a in assets)] *)
Definition update (all_ids : gset string) (assets : list json)
  : result (gset string) :=
  ids ← for_each id_of assets; Ok (all_ids ∪ list_to_set ids).

(** [for assets in results: all_ids.update(...)] *)
Fixpoint update_all (all_ids : gset string) (results : list (list json))
  : result (gset string) :=
  match results with
  | [] => Ok all_ids
  | assets :: rest => s ← update all_ids assets; update_all s rest
  end.

Definition _one (h : ImmichHub) (base : pydict) (pid : json) : M (list json) :=
  let payload := dict_set "personIds" (JList [pid]) base in
  Hub.search_images W h payload.

(** [ImmichImageSearch._refresh_available_asset_ids]; [list(all_ids)] lists
    the set in an order of its own. *)
Definition ImmichImageSearch_refresh_available_asset_ids
  (_search_payload : pydict) : M (option (list string)) :=
  e ← get_self;
  let base := dict_without "personIds" _search_payload in
  person_ids ← lift (subscript (JObj _search_payload) "personIds");
  pids ← lift (iter person_ids);
  results ← gather (_one (hub e) base <$> pids);
  all_ids ← lift (update_all ∅ results);
  log DEBUG "OR-search found %s unique assets";;
  mret (Some (elements all_ids)).

(** Method resolution: [ImmichImageAlbum] defines no method of its own and
    inherits the one of [BaseImmichImage]. *)
Definition _refresh_available_asset_ids : M (option (list string)) :=
  e ← get_self;
  match class_of e with
  | ImmichImageFavorite => ImmichImageFavorite_refresh_available_asset_ids
  | ImmichImageAlbum _ _ => BaseImmichImage_refresh_available_asset_ids
  | ImmichImageSearch p _ _ => ImmichImageSearch_refresh_available_asset_ids p
  end.

(** The condition of the first [if] of [_get_next_asset_id]; the clock is
    read only when a timestamp is there to compare with. *)
Definition is_stale : M bool :=
  e ← get_self;
  match _available_asset_ids_last_updated e with
  | None => mret true
  | Some last => t ← now W; mret (bool_decide (t - last > _ID_LIST_REFRESH_INTERVAL))
  end.

(** The second half of [_get_next_asset_id]: the choice from the cache. *)
Definition choose : M (option string) :=
  e ← get_self;
  match _cached_available_asset_ids e with
  | None | Some [] => log ERROR "No assets are available";; mret None
  | Some ids => random_asset ← random_choice W ids; mret (Some random_asset)
  end.

Definition _get_next_asset_id : M (option string) :=
  stale ← is_stale;
  (if stale : bool then
     log DEBUG "Refreshing available asset IDs";;
     ids ← _refresh_available_asset_ids;
     modify_self (set_cache ids);;
     t ← now W;
     modify_self (set_cache_stamp t)
   else mret ());;
  choose.

(** One turn of [while not asset_bytes: ...]. *)
Definition load_turn : M turn :=
  asset_id ← _get_next_asset_id;
  match asset_id with
  | None | Some "" => mret Returned
  | Some asset_id =>
      e ← get_self;
      asset_bytes ← Hub.download_asset W (hub e) asset_id;
      match asset_bytes with
      | None | Some [] => sleep 1;; mret Continued
      | Some asset_bytes =>
          asset_info ← Hub.get_asset_info W (hub e) asset_id;
          v ← lift (get asset_info "originalFileName" JNull);
          modify_self (set_attribute "media_filename" (or_empty v));;
          v ← lift (get asset_info "exifInfo" JNull);
          modify_self (set_attribute "media_exif" (or_empty v));;
          v ← lift (get asset_info "localDateTime" JNull);
          modify_self (set_attribute "media_localdatetime" (or_empty v));;
          modify_self (set_image asset_bytes);;
          t ← now W;
          modify_self (set_image_stamp t);;
          emit EvWriteState;;
          mret Loaded
      end
  end.

(** [_load_and_cache_next_image], allowed [turns] turns of its loop. *)
Fixpoint _load_and_cache_next_image (turns : nat) : M run :=
  match turns with
  | O => mret StillLooping
  | S turns' =>
      t ← load_turn;
      match t with
      | Returned | Loaded => mret Finished
      | Continued => _load_and_cache_next_image turns'
      end
  end.

(** [async_update] *)
Definition async_update (turns : nat) : M run :=
  _load_and_cache_next_image turns.

(** [async_image], its loop allowed [turns] turns: [None] while the loop is
    still running after them, else what the coroutine returns. *)
Definition async_image (turns : nat) : M (option (option bytes)) :=
  e ← get_self;
  r ← match _current_image_bytes e with
      | None | Some [] => _load_and_cache_next_image turns
      | Some _ => mret Finished
      end;
  match r with
  | StillLooping => mret None
  | Finished => e' ← get_self; mret (Some (_current_image_bytes e'))
  end.

End Image.

(** ** image.py: setting the platform up *)

(** What the host hands to [async_setup_entry]: [data[CONF_HOST]],
    [data[CONF_API_KEY]], and [options.get(CONF_WATCHED_ALBUMS)], a list of
    album ids when it is set. *)
Record config_entry : Type := ConfigEntry {
  conf_host : string;
  conf_api_key : string;
  conf_watched_albums : option (list string) }.

(** An entity as [async_setup_entry] constructs it: the constructor and the
    arguments it is called with. *)
Inductive construction : Type :=
| NewFavorite (h : ImmichHub)
| NewAlbum (h : ImmichHub) (album_id : string) (album_name : json)
| NewSearch (h : ImmichHub) (search_payload : pydict) (unique_id name : string).

(** The platform being set up: the running state of the client, and the
    batches handed to [async_add_entities], latest first. The entity of the
    running state plays no part here. *)
Record platform : Type := Platform {
  core : sys;
  added : list (list construction) }.

Definition async_add_entities (batch : list construction) (p : platform)
  : platform :=
  {| core := core p; added := batch :: added p |}.

Definition person_search_payload : pydict :=
  [("personIds", JList [JStr "062a35df-b9e1-4157-af7f-a39b73eea08b";
                        JStr "a75f0e40-48b3-4f42-9139-662b5b0f8110";
                        JStr "4b1f3c5b-6c69-455e-a5cb-e5e08ceb8a61";
                        JStr "8c125b8d-b1c3-4363-8c68-e52c88a3b428"]);
   ("takenAfter", JStr "2011-01-01T00:00:00.000Z");
   ("type", JStr "IMAGE")].

(** [[ImmichImageAlbum(hass, hub, album_id=album["id"],
      album_name=album["albumName"]) for album in albums
     if album["id"] in watched_albums]]; an id that is no string equals none
    of the watched ids. *)
Fixpoint album_entities (h : ImmichHub) (watched_albums : list string)
  (albums : list json) : result (list construction) :=
  match albums with
  | [] => Ok []
  | album :: rest =>
      id ← subscript album "id";
      match id with
      | JStr album_id =>
          if bool_decide (album_id ∈ watched_albums) then
            id' ← subscript album "id";
            album_name ← subscript album "albumName";
            entities ← album_entities h watched_albums rest;
            Ok (NewAlbum h album_id album_name :: entities)
          else album_entities h watched_albums rest
      | _ => album_entities h watched_albums rest
      end
  end.

(** [async_setup_entry]. The update listener it registers with the host
    between the second and the third batch is the host's affair. *)
Definition async_setup_entry (W : world) (c : config_entry) (p : platform)
  : result unit * platform :=
  let h := {| host := conf_host c; api_key := conf_api_key c |} in
  let p := async_add_entities [NewFavorite h] p in
  let watched_albums := default [] (conf_watched_albums c) in
  match Hub.list_all_albums W h (core p) with
  | (Raise e, s) => (Raise e, {| core := s; added := added p |})
  | (Ok albums, s) =>
      let p := {| core := s; added := added p |} in
      match (items ← iter albums; album_entities h watched_albums items) with
      | Raise e => (Raise e, p)
      | Ok batch =>
          let p := async_add_entities batch p in
          let p := async_add_entities
                     [NewSearch h person_search_payload
                        "search_people_of_interest" "Immich: People of Interest"]
                     p in
          (Ok (), p)
      end
  end.

(** ** Vocabulary of the properties *)

(** The clock reading that [is_stale] compares with the timestamp. *)
Definition after_now (s : sys) : sys :=
  {| self := self s; clock_reads := S (clock_reads s);
     requests := requests s; draws := draws s; trace := trace s |}.

(** The cache is fresh at [s]: stamped, and no older than the interval at the
    next reading of the clock. *)
Definition fresh (W : world) (s : sys) : Prop :=
  ∃ last, _available_asset_ids_last_updated (self s) = Some last
          ∧ datetime_now W (clock_reads s) - last ≤ _ID_LIST_REFRESH_INTERVAL.

(** The cache is stale at [s]: never stamped, or older than the interval. *)
Definition stale (W : world) (s : sys) : Prop :=
  _available_asset_ids_last_updated (self s) = None
  ∨ ∃ last, _available_asset_ids_last_updated (self s) = Some last
            ∧ datetime_now W (clock_reads s) - last > _ID_LIST_REFRESH_INTERVAL.

(** The state in which the refresh is invoked: after the staleness test and
    the log line that announces the refresh. *)
Definition at_refresh (W : world) (s : sys) : sys :=
  ((is_stale W;; log DEBUG "Refreshing available asset IDs") s).2.

(** The cool-downs recorded in a trace. *)
Definition sleeps (tr : list event) : list Z :=
  omap (λ ev, match ev with EvSleep n => Some n | _ => None end) tr.

(** Two states of an entity that differ at most in the candidate cache. *)
Definition same_view (e e' : entity) : Prop :=
  class_of e' = class_of e ∧ hub e' = hub e ∧ displayed e' = displayed e.

(** [m] takes the entity from a state to one related by [R], and does not
    sleep. *)
Definition frames (R : relation entity) {A} (m : M A) : Prop :=
  ∀ s, R (self s) (self (m s).2) ∧ sleeps (trace (m s).2) = sleeps (trace s).

(** A pool from which every choice is an asset id to download. *)
Definition good_pool (o : option (list string)) : Prop :=
  ∃ ids, o = Some ids ∧ ids ≠ [] ∧ "" ∉ ids.

(** No bytes: [None], or the empty byte string. *)
Definition no_bytes (r : result (option bytes)) : Prop :=
  r = Ok None ∨ r = Ok (Some []).

(** The update loop is still retrying after any number of turns: it has
    slept one second a turn and shows what it showed. *)
Definition retries_forever (W : world) (s : sys) : Prop :=
  ∀ n, ∃ s_n,
    _load_and_cache_next_image W n s = (Ok StillLooping, s_n)
    ∧ displayed (self s_n) = displayed (self s)
    ∧ sleeps (trace s_n) = (repeat 1 n ++ sleeps (trace s))%list.

(** The state in which turn [k] of the update loop begins, the turns before
    it taken. *)
Fixpoint turn_start (W : world) (k : nat) (s : sys) : sys :=
  match k with
  | O => s
  | S k' => turn_start W k' (load_turn W s).2
  end.

(** The candidate pool and its timestamp in a running state. *)
Definition pool (s : sys) : option (list string) :=
  _cached_available_asset_ids (self s).

Definition stamp (s : sys) : option Z :=
  _available_asset_ids_last_updated (self s).


(** The ids of a result list, as a set. *)
Definition ids_in (assets : list json) : gset string :=
  list_to_set (omap (λ a, match id_of a with Ok i => Some i | Raise _ => None end)
                 assets).

(** The MIME type an asset declares, in the words of the specification: the
    canonical field when present, otherwise the legacy one. *)
Definition declared_mime (d : pydict) : option json :=
  match dict_get "originalMimeType" d with
  | Some v => Some v
  | None => dict_get "mimeType" d
  end.

Definition same_up_to_case (a b : string) : Prop :=
  lower_string a = lower_string b.

(** The two shapes of a search answer that the specification recognises: a
    top-level list field, or a nested object whose list field is a list or is
    absent. *)
Definition flat_shape (data : json) : Prop :=
  ∃ d l, data = JObj d ∧ dict_get "items" d = Some (JList l).

Definition nested_shape (data : json) : Prop :=
  ∃ d n, data = JObj d ∧ dict_get "assets" d = Some (JObj n)
         ∧ (dict_get "items" n = None ∨ ∃ l, dict_get "items" n = Some (JList l)).

(** The attributes after a load: each field of the metadata, or the empty
    string in its place. *)
Definition attributes_of (d : pydict) (attrs : gmap string json) : gmap string json :=
  <["media_localdatetime" := or_empty (default JNull (dict_get "localDateTime" d))]>
  (<["media_exif" := or_empty (default JNull (dict_get "exifInfo" d))]>
   (<["media_filename" := or_empty (default JNull (dict_get "originalFileName" d))]>
    attrs)).

(** ** Scenarios *)

Definition hub0 : ImmichHub := {| host := "http://immich.local:2283"; api_key := "secret" |}.

(** An answer with status 200 and a JSON body. *)
Definition ok_json (body : json) : response :=
  {| status := 200; content_type := "application/json";
     text := Got ""; read := Got []; json_of := Got body |}.

Definition image_asset (id : string) : json :=
  JObj [("id", JStr id); ("type", JStr "IMAGE");
        ("originalMimeType", JStr "image/jpeg")].

(** The metadata search answers with the nested shape. *)
Definition nested (items : json) : json := JObj [("assets", JObj [("items", items)])].

(** A server that answers every request with the same JSON body; the clock
    advances one second a reading. *)
Definition answering (body : json) : world :=
  {| datetime_now := λ k, 1000000 * Z.of_nat k;
     transport := λ _ _, Got (ok_json body);
     random_draw := λ k, k;
     first_failure := λ _, 0%nat |}.

(** A server with two favourites. *)
Definition two_favorites : world :=
  answering (nested (JList [image_asset "a"; image_asset "b"])).

Definition start (c : image_class) : sys :=
  {| self := new_entity c hub0; clock_reads := 0; requests := 0; draws := 0;
     trace := [] |}.

(** A server with one album holding an image and a video. *)
Definition one_album : world :=
  answering (JObj [("id", JStr "album-1");
                   ("assets", JList [image_asset "a";
                                     JObj [("id", JStr "v");
                                           ("type", JStr "VIDEO")]])]).

(** A server that knows two people: x and z show the first, y and z the
    second. *)
Definition people_answer (r : request) : json :=
  match req_body r with
  | JsonBody d =>
      match dict_get "personIds" d with
      | Some (JList [JStr p]) =>
          if String.eqb p "p1" then nested (JList [image_asset "x"; image_asset "z"])
          else if String.eqb p "p2" then nested (JList [image_asset "y"; image_asset "z"])
          else nested (JList [])
      | _ => nested (JList [])
      end
  | _ => nested (JList [])
  end.

Definition two_people : world :=
  {| datetime_now := λ k, 1000000 * Z.of_nat k;
     transport := λ _ r, Got (ok_json (people_answer r));
     random_draw := λ k, k;
     first_failure := λ _, 0%nat |}.

Definition people_payload : pydict :=
  [("personIds", JList [JStr "p1"; JStr "p2"]);
   ("takenAfter", JStr "2011-01-01T00:00:00.000Z");
   ("type", JStr "IMAGE")].

(** A library of mixed entries: upper-case MIME type, a video, an image of a
    type outside the list, canonical and legacy fields that disagree. *)
Definition entry (id type : string) (fields : pydict) : json :=
  JObj ([("id", JStr id); ("type", JStr type)] ++ fields).

Definition mixed_library : world :=
  answering (nested (JList
    [entry "jpeg" "IMAGE" [("originalMimeType", JStr "image/JPEG")];
     entry "video" "VIDEO" [("originalMimeType", JStr "image/png")];
     entry "gif" "IMAGE" [("originalMimeType", JStr "image/gif")];
     entry "both" "IMAGE" [("mimeType", JStr "video/mp4");
                           ("originalMimeType", JStr "image/png")];
     entry "legacy" "IMAGE" [("mimeType", JStr "image/HEIC")];
     entry "masked" "IMAGE" [("mimeType", JStr "image/png");
                             ("originalMimeType", JStr "video/mp4")];
     entry "bare" "IMAGE" []])).

Definition jpeg : bytes := [Byte.xff; Byte.xd8; Byte.xff].

(** The answer to a download: an image of type image/jpeg. *)
Definition image_response (b : bytes) : response :=
  {| status := 200; content_type := "image/jpeg";
     text := Got ""; read := Got b; json_of := Fails OtherFault |}.

(** An answer that carries nothing but a status. *)
Definition refusal (st : Z) : response :=
  {| status := st; content_type := "application/json";
     text := Got "{}"; read := Got []; json_of := Got (JObj []) |}.

(** A server whose favourites are the images [ids]; it answers a download
    with [original] and a request for metadata with [metadata]. *)
Definition library (ids : list string) (original metadata : response) : world :=
  {| datetime_now := λ k, 1000000 * Z.of_nat k;
     transport := λ _ r,
       match req_verb r with
       | POST => Got (ok_json (nested (JList (image_asset <$> ids))))
       | GET => if is_substring "/original" (path (req_url r))
                then Got original else Got metadata
       end;
     random_draw := λ k, k;
     first_failure := λ _, 0%nat |}.

Definition photo_server : world :=
  library ["a"; "b"] (image_response jpeg)
    (ok_json (JObj [("originalFileName", JStr "x.jpg")])).

Definition empty_library : world := library [] (refusal 404) (refusal 404).

Definition dead_links : world := library ["a"] (refusal 404) (refusal 404).

Definition blank_id : world := library [""] (refusal 404) (refusal 404).

Definition null_metadata : world :=
  library ["a"] (image_response jpeg) (ok_json JNull).

Definition unreachable : world :=
  {| datetime_now := λ k, 1000000 * Z.of_nat k;
     transport := λ _ _, Fails ClientFault;
     random_draw := λ k, k;
     first_failure := λ _, 0%nat |}.

(** A favourites entity whose pool was filled at time [t]. *)
Definition pooled (ids : list string) (t : Z) : sys :=
  {| self := set_cache_stamp t
               (set_cache (Some ids) (new_entity ImmichImageFavorite hub0));
     clock_reads := 1; requests := 1; draws := 0; trace := [] |}.

(** A server that refuses every search with status 500 and every download
    with status 404; the clock shows nine hours at every reading. *)
Definition refused_search : world :=
  {| datetime_now := λ _, 9 * 3600 * 1000000;
     transport := λ _ r,
       match req_verb r with
       | POST => Got (refusal 500)
       | GET => Got (refusal 404)
       end;
     random_draw := λ k, k;
     first_failure := λ _, 0%nat |}.

(** A server whose downloads are documents, not images. *)
Definition pdf_response : response :=
  {| status := 200; content_type := "application/pdf";
     text := Got ""; read := Got jpeg; json_of := Fails OtherFault |}.

Definition pdf_only : world := library ["a"] pdf_response (refusal 404).

(** ** Vocabulary of the further properties *)

(** The exception a coroutine ends with, if any. *)
Definition raised {A} (m : M A) (s : sys) : option exn :=
  match (m s).1 with Raise e => Some e | Ok _ => None end.

(** The requests recorded in a trace, latest first. *)
Definition requests_of (tr : list event) : list request :=
  omap (λ ev, match ev with EvRequest r => Some r | _ => None end) tr.

(** An entry that the search keeps: an object of type IMAGE whose declared
    MIME type is a string that lower-cases into the allow-list. *)
Definition wanted (a : json) : bool :=
  match a with
  | JObj d =>
      eq_str (default JNull (dict_get "type" d)) "IMAGE"
      && match declared_mime d with
         | Some (JStr m) => bool_decide (lower_string m ∈ Hub.allowed)
         | _ => false
         end
  | _ => false
  end.

(** [asset["type"] == "IMAGE"], false where the subscript raises. *)
Definition typed_image (a : json) : bool :=
  match subscript a "type" with Ok t => eq_str t "IMAGE" | Raise _ => false end.

(** The request of [list_favorite_images]. *)
Definition favorites_request (h : ImmichHub) : request :=
  {| req_verb := POST;
     req_url := urljoin (host h) "/api/search/metadata";
     req_headers := Hub.json_headers h;
     req_body := FormBody [("isFavorite", "true")] |}.

(** The request of [list_album_images]. *)
Definition album_request (h : ImmichHub) (album_id : string) : request :=
  {| req_verb := GET;
     req_url := urljoin (host h) ("/api/albums/" +:+ album_id);
     req_headers := Hub.json_headers h;
     req_body := NoBody |}.

(** The defaults of a search, which the caller's payload overrides. *)
Definition search_default (k : string) : option json :=
  if String.eqb k "type" then Some (JStr "IMAGE")
  else if String.eqb k "size" then Some (JNum 400)
  else None.

(** The candidate cache is populated whenever it is stamped. *)
Definition cache_inv (s : sys) : Prop :=
  stamp s = None ∨ ∃ ids, pool s = Some ids.

(** Two states of an entity with the same candidate cache. *)
Definition same_cache (e e' : entity) : Prop :=
  _cached_available_asset_ids e' = _cached_available_asset_ids e
  ∧ _available_asset_ids_last_updated e' = _available_asset_ids_last_updated e.

(** The album id an entry of the album list carries, when it is a string. *)
Definition album_id_of (album : json) : option string :=
  match subscript album "id" with Ok (JStr i) => Some i | _ => None end.

Definition constructed_album (c : construction) : option string :=
  match c with NewAlbum _ i _ => Some i | _ => None end.

(** The payload of the sub-search for one person. *)
Definition payload_for (payload : pydict) (pid : json) : pydict :=
  dict_set "personIds" (JList [pid]) (dict_without "personIds" payload).

(** The state in which a turn of the update loop ends a load: attributes,
    image and time of the update written, the host notified. *)
Definition loaded_state (W : world) (d : pydict) (b : bytes) (s : sys) : sys :=
  {| self := set_image_stamp (datetime_now W (clock_reads s))
               (set_image b
                  (set_attribute "media_localdatetime"
                     (or_empty (default JNull (dict_get "localDateTime" d)))
                     (set_attribute "media_exif"
                        (or_empty (default JNull (dict_get "exifInfo" d)))
                        (set_attribute "media_filename"
                           (or_empty (default JNull (dict_get "originalFileName" d)))
                           (self s)))));
     clock_reads := S (clock_reads s);
     requests := requests s; draws := draws s;
     trace := EvWriteState :: trace s |}.

(** What an attribute shows of a field of the metadata: its value, or the
    empty string when the field is missing or falsy. *)
Definition shown (d : pydict) (field : string) : json :=
  match dict_get field d with
  | Some v => if truthy v then v else JStr ""
  | None => JStr ""
  end.

(** The hub that [async_setup_entry] builds from the configuration. *)
Definition hub_of (c : config_entry) : ImmichHub :=
  {| host := conf_host c; api_key := conf_api_key c |}.

Definition people_of_interest (h : ImmichHub) : construction :=
  NewSearch h person_search_payload "search_people_of_interest"
    "Immich: People of Interest".

(** A server with a token check: it answers [auth] to the validation of the
    token and the album list [albums] to everything else. *)
Definition gatekeeper (auth : response) (albums : json) : world :=
  {| datetime_now := λ k, 1000000 * Z.of_nat k;
     transport := λ _ r,
       match req_verb r with
       | POST => Got auth
       | GET => Got (ok_json albums)
       end;
     random_draw := λ k, k;
     first_failure := λ _, 0%nat |}.

Definition album (id name : string) : json :=
  JObj [("id", JStr id); ("albumName", JStr name)].

Definition three_albums : json :=
  JList [album "al-1" "Holidays"; album "al-2" "Garden"; album "al-3" "Pets"].

Definition fresh_platform : platform :=
  {| core := start ImmichImageFavorite; added := [] |}.

(** * Properties *)

(** ** Stepping through coroutines *)

Lemma bind_ok {A B} (m : M A) (k : A → M B) (s s' : sys) (a : A) :
  m s = (Ok a, s') → (m ≫= k) s = k a s'.
Proof. intros E. unfold mbind, M_bind. by rewrite E. Qed.

Lemma bind_inv {A B} (m : M A) (k : A → M B) (s s' : sys) (b : B) :
  (m ≫= k) s = (Ok b, s') → ∃ a s1, m s = (Ok a, s1) ∧ k a s1 = (Ok b, s').
Proof.
  unfold mbind, M_bind. destruct (m s) as [[a|e] s1]; [eauto | discriminate].
Qed.

Lemma is_stale_unset (W : world) (s : sys) :
  _available_asset_ids_last_updated (self s) = None →
  is_stale W s = (Ok true, s).
Proof. intros E. unfold is_stale, get_self, mbind, M_bind. by rewrite E. Qed.

Lemma is_stale_set (W : world) (s : sys) (last : Z) :
  _available_asset_ids_last_updated (self s) = Some last →
  is_stale W s =
    (Ok (bool_decide (datetime_now W (clock_reads s) - last
                      > _ID_LIST_REFRESH_INTERVAL)), after_now s).
Proof. intros E. unfold is_stale, get_self, mbind, M_bind. by rewrite E. Qed.

(** The choice reads the entity and leaves it as it is; it sends nothing. *)
Lemma choose_frame (W : world) (s : sys) :
  ∃ r, (choose W s).1 = Ok r ∧ self (choose W s).2 = self s
       ∧ requests (choose W s).2 = requests s
       ∧ clock_reads (choose W s).2 = clock_reads s.
Proof.
  unfold choose, get_self, mbind, M_bind.
  destruct (_cached_available_asset_ids (self s)) as [[|i l]|]; simpl; eauto.
Qed.

Lemma fresh_or_stale (W : world) (s : sys) : fresh W s ∨ stale W s.
Proof.
  unfold fresh, stale.
  destruct (_available_asset_ids_last_updated (self s)) as [last|]; [|by right; left].
  destruct (decide (datetime_now W (clock_reads s) - last
                    ≤ _ID_LIST_REFRESH_INTERVAL)); [left | right; right];
    exists last; split; [done | lia | done | lia].
Qed.

Lemma get_next_fresh (W : world) (s : sys) :
  fresh W s → _get_next_asset_id W s = choose W (after_now s).
Proof.
  intros (last & E & Hage). unfold _get_next_asset_id.
  rewrite (bind_ok _ _ _ _ _ (is_stale_set W s last E)).
  rewrite bool_decide_eq_false_2 by lia. done.
Qed.

Lemma is_stale_stale (W : world) (s : sys) :
  stale W s → ∃ s0, is_stale W s = (Ok true, s0) ∧ self s0 = self s
                    ∧ requests s0 = requests s.
Proof.
  intros [E | (last & E & Hage)].
  - exists s. by rewrite is_stale_unset.
  - exists (after_now s). rewrite (is_stale_set W s last E).
    by rewrite bool_decide_eq_true_2 by lia.
Qed.

Lemma get_next_stale_ok (W : world) (s s2 : sys) (ids : option (list string)) :
  stale W s →
  _refresh_available_asset_ids W (at_refresh W s) = (Ok ids, s2) →
  _get_next_asset_id W s =
    choose W (after_now
      {| self := set_cache_stamp (datetime_now W (clock_reads s2))
                   (set_cache ids (self s2));
         clock_reads := clock_reads s2; requests := requests s2;
         draws := draws s2; trace := trace s2 |}).
Proof.
  intros Hst. unfold at_refresh.
  destruct (is_stale_stale W s Hst) as (s0 & E0 & _).
  rewrite (bind_ok _ _ _ _ _ E0). simpl. intros Er.
  unfold _get_next_asset_id. rewrite (bind_ok _ _ _ _ _ E0).
  unfold mbind at 1, M_bind at 1.
  unfold mbind at 1, M_bind at 1. simpl.
  unfold mbind at 1, M_bind at 1. rewrite Er. done.
Qed.

Lemma get_next_stale_raise (W : world) (s s2 : sys) (e : exn) :
  stale W s →
  _refresh_available_asset_ids W (at_refresh W s) = (Raise e, s2) →
  _get_next_asset_id W s = (Raise e, s2).
Proof.
  intros Hst. unfold at_refresh.
  destruct (is_stale_stale W s Hst) as (s0 & E0 & _).
  rewrite (bind_ok _ _ _ _ _ E0). simpl. intros Er.
  unfold _get_next_asset_id. rewrite (bind_ok _ _ _ _ _ E0).
  unfold mbind at 1, M_bind at 1.
  unfold mbind at 1, M_bind at 1. simpl.
  unfold mbind at 1, M_bind at 1. rewrite Er. done.
Qed.

(** ** What a coroutine leaves alone *)

Create HintDb frame.

Section Frames.

Context (R : relation entity) `{!PreOrder R}.

Lemma frames_ret {A} (a : A) : frames R (mret a : M A).
Proof. done. Qed.

Lemma frames_raise {A} (e : exn) : frames R (@raise A e).
Proof. done. Qed.

Lemma frames_lift {A} (r : result A) : frames R (lift r).
Proof. done. Qed.

Lemma frames_log (l : level) (msg : string) : frames R (log l msg).
Proof. done. Qed.

Lemma frames_get_self : frames R get_self.
Proof. done. Qed.

Lemma frames_await {A} (x : io A) : frames R (await x).
Proof. done. Qed.

Lemma frames_now (W : world) : frames R (now W).
Proof. done. Qed.

Lemma frames_send (W : world) (r : request) : frames R (send W r).
Proof. intros s. unfold send. by destruct (transport W (requests s) r). Qed.

Lemma frames_random_choice (W : world) (l : list string) :
  frames R (random_choice W l).
Proof. done. Qed.

Lemma frames_bind {A B} (m : M A) (k : A → M B) :
  frames R m → (∀ a, frames R (k a)) → frames R (m ≫= k).
Proof.
  intros Hm Hk s. unfold mbind, M_bind.
  destruct (Hm s) as [H1 H2]. destruct (m s) as [[a|e] s1]; simpl in *; [|done].
  destruct (Hk a s1) as [H3 H4]. split; [by etrans | congruence].
Qed.

Lemma frames_except {A} (m : M A) : frames R m → frames R (except_ClientError m).
Proof.
  intros Hm s. unfold except_ClientError. specialize (Hm s).
  destruct (m s) as [[a|[]] s1]; done.
Qed.

Lemma frames_modify (f : entity → entity) :
  (∀ e, R e (f e)) → frames R (modify_self f).
Proof. intros Hf s. split; [apply Hf | done]. Qed.

End Frames.

#[global] Hint Resolve frames_ret frames_raise frames_lift frames_log
  frames_get_self frames_await frames_now frames_send frames_random_choice
  : frame.
#[global] Hint Extern 1 (PreOrder _) => apply _ : frame.

(** Walks a coroutine along its binds and case distinctions. *)
Ltac frame :=
  repeat first
    [ progress auto with frame
    | refine (frames_bind _ _ _ _ _); [|intros ?]
    | refine (frames_except _ _ _)
    | match goal with
      | |- frames _ (if ?b then _ else _) => destruct b
      | |- frames _ (match ?x with _ => _ end) => destruct x
      end ].

Lemma frames_get_asset_info (W : world) (h : ImmichHub) (asset_id : string) :
  frames eq (Hub.get_asset_info W h asset_id).
Proof. unfold Hub.get_asset_info. frame. Qed.

Lemma frames_download_asset (W : world) (h : ImmichHub) (asset_id : string) :
  frames eq (Hub.download_asset W h asset_id).
Proof. unfold Hub.download_asset. frame. Qed.

Lemma frames_list_favorite_images (W : world) (h : ImmichHub) :
  frames eq (Hub.list_favorite_images W h).
Proof. unfold Hub.list_favorite_images. frame. Qed.

Lemma frames_search_images (W : world) (h : ImmichHub) (payload : pydict) :
  frames eq (Hub.search_images W h payload).
Proof. unfold Hub.search_images. frame. Qed.

Lemma frames_run_all {A} (tasks : list (M A)) (s : sys) :
  Forall (frames eq) tasks →
  self s = self (run_all tasks s).2
  ∧ sleeps (trace (run_all tasks s).2) = sleeps (trace s).
Proof.
  intros HF. revert s. induction HF as [|t rest Ht _ IH]; intros s; simpl; [done|].
  destruct (Ht s) as [H1 H2]. destruct (t s) as [r s1]. simpl in H1, H2.
  destruct (IH s1) as [H3 H4]. destruct (run_all rest s1) as [rs s2].
  simpl in *. split; congruence.
Qed.

Lemma frames_gather {A} (W : world) (tasks : list (M A)) :
  Forall (frames eq) tasks → frames eq (gather W tasks).
Proof.
  intros HF s. unfold gather.
  pose proof (frames_run_all tasks s HF) as H.
  destruct (run_all tasks s) as [outcomes s']. by destruct (failures outcomes).
Qed.

Lemma frames_refresh (W : world) : frames eq (_refresh_available_asset_ids W).
Proof.
  unfold _refresh_available_asset_ids,
    ImmichImageFavorite_refresh_available_asset_ids,
    BaseImmichImage_refresh_available_asset_ids,
    ImmichImageSearch_refresh_available_asset_ids.
  pose proof (frames_list_favorite_images W).
  pose proof (frames_search_images W).
  frame.
  apply frames_gather, Forall_fmap, Forall_forall. intros pid _.
  apply frames_search_images.
Qed.

#[global] Instance same_view_preorder : PreOrder same_view.
Proof.
  split.
  - by intros e.
  - intros e1 e2 e3 (H1 & H2 & H3) (H4 & H5 & H6). unfold same_view. 
    by rewrite H4, H5, H6.
Qed.

Lemma frames_weaken {A} (m : M A) : frames eq m → frames same_view m.
Proof. intros Hm s. destruct (Hm s) as [<- H]. done. Qed.

Lemma frames_get_next (W : world) : frames same_view (_get_next_asset_id W).
Proof.
  unfold _get_next_asset_id, is_stale, choose.
  pose proof (frames_weaken _ (frames_refresh W)).
  frame; by apply frames_modify.
Qed.

(** ** The candidate cache *)

Lemma get_next_fresh_frame (W : world) (s : sys) :
  fresh W s →
  self (_get_next_asset_id W s).2 = self s
  ∧ requests (_get_next_asset_id W s).2 = requests s.
Proof.
  intros Hf. rewrite (get_next_fresh W s Hf).
  destruct (choose_frame W (after_now s)) as (r & _ & Hs & Hr & _).
  by rewrite Hs, Hr.
Qed.

(** C1. A call of [_get_next_asset_id] on a fresh cache (stamped, and aged at
    most 8 hours) is the reading of the clock followed by the choice: the
    entity is left as it was and nothing is requested, so that a second call,
    still on a fresh cache, finds the same pool. On a stale cache (never
    stamped, or older than 8 hours) the refresh is run; what it returns, empty
    or not, becomes the pool, and the timestamp becomes the reading of the
    clock that follows; what it raises is raised by the call. *)
Theorem get_next_asset_id_refresh_policy (W : world) (s : sys) :
  (fresh W s →
     _get_next_asset_id W s = choose W (after_now s)
     ∧ self (_get_next_asset_id W s).2 = self s
     ∧ requests (_get_next_asset_id W s).2 = requests s
     ∧ (fresh W (_get_next_asset_id W s).2 →
        pool (_get_next_asset_id W (_get_next_asset_id W s).2).2 = pool s))
  ∧ (stale W s →
     trace (at_refresh W s) = EvLog DEBUG "Refreshing available asset IDs" :: trace s
     ∧ match _refresh_available_asset_ids W (at_refresh W s) with
       | (Ok ids, s2) =>
           pool (_get_next_asset_id W s).2 = ids
           ∧ stamp (_get_next_asset_id W s).2
             = Some (datetime_now W (clock_reads s2))
       | (Raise e, s2) => _get_next_asset_id W s = (Raise e, s2)
       end).
Proof.
  split.
  - intros Hf. destruct (get_next_fresh_frame W s Hf) as [Hs Hr].
    repeat split; [by apply get_next_fresh | done | done |].
    intros Hf'. destruct (get_next_fresh_frame W _ Hf') as [Hs' _].
    unfold pool. by rewrite Hs', Hs.
  - intros Hst. split.
    + unfold at_refresh. destruct (is_stale_stale W s Hst) as (s0 & E0 & _).
      rewrite (bind_ok _ _ _ _ _ E0). simpl.
      destruct Hst as [E | (last & E & Hage)].
      * rewrite (is_stale_unset W s E) in E0. by inversion E0.
      * rewrite (is_stale_set W s last E) in E0. by inversion E0.
    + destruct (_refresh_available_asset_ids W (at_refresh W s))
        as [[ids|e] s2] eqn:Er.
      * rewrite (get_next_stale_ok W s s2 ids Hst Er).
        match goal with |- context [choose W ?x] =>
          destruct (choose_frame W x) as (r & _ & Hs & _) end.
        unfold pool, stamp. by rewrite Hs.
      * by apply get_next_stale_raise.
Qed.

Lemma get_next_asset_id_refresh_policy_witness :
  let s0 := start ImmichImageFavorite in
  let s1 := (_get_next_asset_id two_favorites s0).2 in
  (pool s1 = Some ["a"; "b"] ∧ stamp s1 = Some 0)
  ∧ (self (_get_next_asset_id two_favorites s1).2 = self s1
     ∧ requests (_get_next_asset_id two_favorites s1).2 = 1%nat).
Proof.
  intros s0 s1. split.
  - pose proof (proj2 (get_next_asset_id_refresh_policy two_favorites s0)
                  (or_introl eq_refl)) as [_ H].
    exact H.
  - assert (Hf : fresh two_favorites s1).
    { exists 0. split; [reflexivity | vm_compute; discriminate]. }
    pose proof (proj1 (get_next_asset_id_refresh_policy two_favorites s1) Hf)
      as (_ & Hs & Hr & _).
    exact (conj Hs Hr).
Defined.

(** ** The choice *)

Lemma choose_result (W : world) (s : sys) :
  match choose W s with
  | (Ok None, s') => pool s' = None ∨ pool s' = Some []
  | (Ok (Some i), s') => ∃ ids, pool s' = Some ids ∧ i ∈ ids
  | (Raise _, _) => False
  end.
Proof.
  unfold choose, get_self, pool, mbind, M_bind.
  destruct (_cached_available_asset_ids (self s)) as [[|i0 l]|] eqn:E;
    cbn -[nth Nat.modulo length]; [by right | | by left].
  exists (i0 :: l). split; [done|].
  apply list_elem_of_In, nth_In, Nat.mod_upper_bound. done.
Qed.





(** ** The album entity *)

(** C3. The refresh of an [ImmichImageAlbum] is the method it inherits from
    [BaseImmichImage], which reads the attribute [_search_payload]; an album
    entity has none, so the refresh raises [AttributeError] before anything is
    requested: the album is never listed and no asset id is returned. *)
Theorem album_refresh_raises_attribute_error
  (W : world) (s : sys) (album_id album_name : string) :
  class_of (self s) = ImmichImageAlbum album_id album_name →
  _refresh_available_asset_ids W s = (Raise AttributeError, s).
Proof.
  intros E.
  unfold _refresh_available_asset_ids,
    BaseImmichImage_refresh_available_asset_ids, get_self, mbind, M_bind.
  rewrite E. cbn beta iota. by rewrite E.
Qed.

(** On a server whose album holds the image [a], the listing is there to be
    had, and the entity's refresh does not ask for it. *)
Lemma album_refresh_raises_attribute_error_witness :
  let s0 := start (ImmichImageAlbum "album-1" "Holidays") in
  (Hub.list_album_images one_album hub0 "album-1" s0).1 = Ok [image_asset "a"]
  ∧ _refresh_available_asset_ids one_album s0 = (Raise AttributeError, s0).
Proof.
  intros s0. split; [reflexivity|].
  apply (album_refresh_raises_attribute_error one_album s0 "album-1" "Holidays").
  reflexivity.
Defined.

(** ** The fan-out search *)

Lemma dict_get_set (k k' : string) (v : json) (d : pydict) :
  dict_get k (dict_set k' v d) = if String.eqb k k' then Some v else dict_get k d.
Proof.
  induction d as [|[k0 v0] d IH]; simpl.
  - by destruct (String.eqb k k').
  - destruct (String.eqb k' k0) eqn:E0; simpl.
    + apply String.eqb_eq in E0 as ->.
      by destruct (String.eqb k k0).
    + destruct (String.eqb k k0) eqn:E1; [|done].
      apply String.eqb_eq in E1 as ->.
      by rewrite String.eqb_sym, E0.
Qed.

Lemma dict_get_without (k k' : string) (d : pydict) :
  dict_get k (dict_without k' d) = if String.eqb k k' then None else dict_get k d.
Proof.
  unfold dict_without. induction d as [|[k0 v0] d IH]; simpl.
  - by destruct (String.eqb k k').
  - destruct (String.eqb k0 k') eqn:E0; simpl.
    + apply String.eqb_eq in E0 as ->. rewrite IH.
      by destruct (String.eqb k k').
    + rewrite IH. destruct (String.eqb k k0) eqn:E1; [|done].
      apply String.eqb_eq in E1 as ->. by rewrite E0.
Qed.

(** The payload of a sub-search is the original one with the list of persons
    replaced by the one person. *)
Lemma one_person_payload (payload : pydict) (pid : json) (k : string) :
  dict_get k (dict_set "personIds" (JList [pid]) (dict_without "personIds" payload))
  = if String.eqb k "personIds" then Some (JList [pid]) else dict_get k payload.
Proof.
  rewrite dict_get_set, dict_get_without. by destruct (String.eqb k "personIds").
Qed.

Lemma for_each_ok {A B} (f : A → result B) (l : list A) (bs : list B) :
  for_each f l = Ok bs ↔ Forall2 (λ a b, f a = Ok b) l bs.
Proof.
  revert bs. induction l as [|a l IH]; intros bs; simpl.
  - split; [intros [= <-]; constructor | by inversion 1].
  - unfold mbind, result_bind, rbind. split.
    + destruct (f a) as [b|] eqn:Ea; [|done].
      destruct (for_each f l) as [bs'|] eqn:El; [|done].
      intros [= <-]. constructor; [done | by apply IH].
    + inversion 1 as [|? b ? bs' Ha Hl]; subst. rewrite Ha.
      apply IH in Hl. by rewrite Hl.
Qed.

Lemma elem_of_ids_in (assets : list json) (i : string) :
  i ∈ ids_in assets ↔ ∃ a, a ∈ assets ∧ id_of a = Ok i.
Proof.
  unfold ids_in. rewrite elem_of_list_to_set, list_elem_of_omap.
  split; intros (a & Ha & E); exists a; (split; [done|]).
  - by destruct (id_of a) as [i'|]; simplify_eq.
  - by rewrite E.
Qed.

Lemma update_ok (acc S : gset string) (assets : list json) :
  update acc assets = Ok S ↔
  Forall (λ a, ∃ i, id_of a = Ok i) assets ∧ S = acc ∪ ids_in assets.
Proof.
  unfold update, mbind, result_bind, rbind.
  destruct (for_each id_of assets) as [ids|e] eqn:E.
  - apply for_each_ok in E.
    assert (Forall (λ a, ∃ i, id_of a = Ok i) assets
            ∧ list_to_set ids = ids_in assets) as [HF Hset].
    { unfold ids_in. induction E as [|a i l ids' Ha _ [IH1 IH2]]; simpl; [done|].
      rewrite Ha. simpl. split; [constructor; eauto | by rewrite IH2]. }
    rewrite Hset. split; [by intros [= <-] | by intros [_ ->]].
  - split; [done|]. intros [HF _]. exfalso.
    assert (∃ ids, for_each id_of assets = Ok ids) as [ids E']; [|congruence].
    clear E. induction HF as [|a l [i Ha] _ [ids IH]]; simpl; [by eexists|].
    exists (i :: ids). unfold mbind, result_bind, rbind. by rewrite Ha, IH.
Qed.

Lemma update_all_ok (acc S : gset string) (results : list (list json)) :
  update_all acc results = Ok S ↔
  Forall (Forall (λ a, ∃ i, id_of a = Ok i)) results
  ∧ S = acc ∪ ⋃ (ids_in <$> results).
Proof.
  revert acc. induction results as [|assets rest IH]; intros acc; simpl.
  - split; [intros [= <-]; split; [constructor | set_solver]
           | intros [_ ->]; f_equal; set_solver].
  - unfold mbind, result_bind, rbind.
    destruct (update acc assets) as [S1|e] eqn:E.
    + apply update_ok in E as [HF ->]. rewrite IH. split.
      * intros [HR ->]. split; [by constructor | set_solver].
      * intros [HR ->]. inversion HR; subst. split; [done | set_solver].
    + split; [done|]. intros [HR ->]. inversion HR as [|? ? HF HR']; subst.
      assert (update acc assets = Ok (acc ∪ ids_in assets)) as E'
        by (by apply update_ok).
      congruence.
Qed.

(** The merge does not depend on the order of the results. *)
Lemma update_all_permutation (acc S : gset string) (results results' : list (list json)) :
  results ≡ₚ results' →
  update_all acc results = Ok S → update_all acc results' = Ok S.
Proof.
  intros HP. rewrite !update_all_ok. intros [HF ->]. split.
  - by rewrite <- HP.
  - apply set_eq. intros i. rewrite !elem_of_union, !elem_of_union_list.
    by setoid_rewrite <- HP.
Qed.

Lemma failures_nil {A} (outcomes : list (result A)) :
  failures outcomes = [] → outcomes = Ok <$> successes outcomes.
Proof.
  unfold failures, successes.
  induction outcomes as [|[a|e] rest IH]; simpl; [done| |done].
  intros E. f_equal. by apply IH.
Qed.

(** A gathering that returns is the run of its tasks, all of which return. *)
Lemma gather_ok_inv {A} (W : world) (tasks : list (M A)) (s s' : sys) (rs : list A) :
  gather W tasks s = (Ok rs, s') → run_all tasks s = (Ok <$> rs, s').
Proof.
  unfold gather. destruct (run_all tasks s) as [outcomes s1].
  destruct (failures outcomes) eqn:Ef; [|done].
  intros [= <- <-]. by rewrite <- (failures_nil outcomes Ef).
Qed.

Lemma run_all_ok {A} (tasks : list (M A)) (s s' : sys) (rs : list A) :
  run_all tasks s = (Ok <$> rs, s') →
  Forall2 (λ t r, ∃ s1 s2, t s1 = (Ok r, s2)) tasks rs.
Proof.
  revert s rs. induction tasks as [|t rest IH]; intros s rs; simpl.
  - destruct rs; [constructor | done].
  - destruct (t s) as [r s1] eqn:Et.
    destruct (run_all rest s1) as [outs s2] eqn:Er.
    destruct rs as [|r0 rs]; [done|]. intros [= -> -> ->].
    constructor; [eauto | by eapply IH].
Qed.

Lemma gather_ok {A} (W : world) (tasks : list (M A)) (s s' : sys) (rs : list A) :
  gather W tasks s = (Ok rs, s') →
  Forall2 (λ t r, ∃ s1 s2, t s1 = (Ok r, s2)) tasks rs.
Proof. intros E. by apply gather_ok_inv, run_all_ok in E. Qed.

Lemma fan_out_unfold
  (W : world) (s : sys) (payload : pydict) (person_ids : list json) :
  dict_get "personIds" payload = Some (JList person_ids) →
  ImmichImageSearch_refresh_available_asset_ids W payload s =
    match gather W (_one W (hub (self s)) (dict_without "personIds" payload)
                      <$> person_ids) s with
    | (Ok results, s1) =>
        match update_all ∅ results with
        | Ok all_ids =>
            (Ok (Some (elements all_ids)),
             (log DEBUG "OR-search found %s unique assets" s1).2)
        | Raise e => (Raise e, s1)
        end
    | (Raise e, s1) => (Raise e, s1)
    end.
Proof.
  intros Hp. unfold ImmichImageSearch_refresh_available_asset_ids.
  unfold get_self, lift, mbind at 1 2 3, M_bind at 1 2 3.
  cbn [subscript]. rewrite Hp. cbn [iter].
  unfold mbind at 1, M_bind at 1.
  destruct (gather W _ s) as [[results|e] s1]; [|done].
  unfold mbind at 1, M_bind at 1.
  by destruct (update_all ∅ results).
Qed.

(** C4. Let the payload hold a list of person ids. The fan-out refresh runs
    one search per person id, each on the payload whose person list is
    replaced by that one person. When these searches return assets that carry
    ids, the refresh returns; and what it returns lists, without repetition,
    exactly the ids of the assets the searches returned: their union, which is
    the same in whatever order the results are merged. *)
Theorem fan_out_refresh_is_union
  (W : world) (s : sys) (payload : pydict) (person_ids : list json) :
  dict_get "personIds" payload = Some (JList person_ids) →
  (∀ results s1,
     gather W (_one W (hub (self s)) (dict_without "personIds" payload)
                 <$> person_ids) s = (Ok results, s1) →
     Forall (Forall (λ a, ∃ i, id_of a = Ok i)) results →
     ∃ found,
       (ImmichImageSearch_refresh_available_asset_ids W payload s).1
       = Ok (Some found))
  ∧ (∀ ids s',
     ImmichImageSearch_refresh_available_asset_ids W payload s = (Ok ids, s') →
     ∃ (found : list string) (results : list (list json)),
       ids = Some found
       ∧ Forall2 (λ pid assets, ∃ p s1 s2,
           (∀ k, dict_get k p = if String.eqb k "personIds"
                                then Some (JList [pid]) else dict_get k payload)
           ∧ Hub.search_images W (hub (self s)) p s1 = (Ok assets, s2))
           person_ids results
       ∧ NoDup found
       ∧ (∀ i, i ∈ found ↔
               ∃ assets a, assets ∈ results ∧ a ∈ assets ∧ id_of a = Ok i)
       ∧ (∀ results', results' ≡ₚ results →
             update_all ∅ results' = Ok (list_to_set found))).
Proof.
  intros Hp. rewrite (fan_out_unfold W s payload person_ids Hp). split.
  - intros results s1 Eg HF. rewrite Eg.
    assert (update_all ∅ results = Ok (∅ ∪ ⋃ (ids_in <$> results))) as ->
      by (by apply update_all_ok).
    by eexists.
  - intros ids s'.
    destruct (gather W _ s) as [[results|e] s1] eqn:Eg; [|done].
    destruct (update_all ∅ results) as [all_ids|e] eqn:Eu; [|done].
    intros [= <- _].
    exists (elements all_ids), results. split; [done|]. split; [|split; [|split]].
    + apply gather_ok, Forall2_fmap_l in Eg.
      eapply Forall2_impl; [exact Eg|].
      intros pid assets (s4 & s5 & E1). simpl in E1.
      exists (dict_set "personIds" (JList [pid]) (dict_without "personIds" payload)),
        s4, s5.
      split; [intros k; apply one_person_payload | exact E1].
    + apply NoDup_elements.
    + intros i. rewrite elem_of_elements.
      apply update_all_ok in Eu as [_ ->].
      rewrite elem_of_union, elem_of_union_list. split.
      * intros [Hi | (X & HX & Hi)]; [set_solver|].
        apply list_elem_of_fmap in HX as (assets & -> & Ha).
        apply elem_of_ids_in in Hi as (a & Hin & Ea). eauto.
      * intros (assets & a & Ha & Hin & Ea). right.
        exists (ids_in assets). split; [by apply list_elem_of_fmap_2|].
        apply elem_of_ids_in. eauto.
    + intros results' HP. rewrite list_to_set_elements_L.
      by apply (update_all_permutation ∅ all_ids results results').
Qed.

Lemma fan_out_refresh_is_union_witness :
  let s0 := start (ImmichImageSearch people_payload "search_people_of_interest"
                     "Immich: People of Interest") in
  let ids := Some (elements ({["x"; "y"; "z"]} : gset string)) in
  (ImmichImageSearch_refresh_available_asset_ids two_people people_payload s0).1
    = Ok ids
  ∧ ∃ found results,
      ids = Some found
      ∧ Forall2 (λ pid assets, ∃ p s1 s2,
          (∀ k, dict_get k p = if String.eqb k "personIds"
                               then Some (JList [pid])
                               else dict_get k people_payload)
          ∧ Hub.search_images two_people (hub (self s0)) p s1 = (Ok assets, s2))
          [JStr "p1"; JStr "p2"] results
      ∧ NoDup found
      ∧ (∀ i, i ∈ found ↔
              ∃ assets a, assets ∈ results ∧ a ∈ assets ∧ id_of a = Ok i)
      ∧ (∀ results', results' ≡ₚ results →
            update_all ∅ results' = Ok (list_to_set found)).
Proof.
  intros s0 ids. split; [vm_compute; reflexivity|].
  apply (proj2 (fan_out_refresh_is_union two_people s0 people_payload
                  [JStr "p1"; JStr "p2"] eq_refl) ids
    (ImmichImageSearch_refresh_available_asset_ids two_people people_payload s0).2).
  vm_compute; reflexivity.
Defined.

(** ** The search operation *)

Lemma send_inv (W : world) (r : request) (s s' : sys) (resp : response) :
  send W r s = (Ok resp, s') → transport W (requests s) r = Got resp.
Proof.
  unfold send. destruct (transport W (requests s) r); [|done]. by intros [= <- _].
Qed.

Lemma await_inv {A} (x : io A) (s s' : sys) (a : A) :
  await x s = (Ok a, s') → x = Got a ∧ s' = s.
Proof. unfold await, lift. destruct x; [|done]. by intros [= <- <-]. Qed.

Lemma search_images_inv
  (W : world) (h : ImmichHub) (payload : pydict) (s s' : sys) (images : list json) :
  Hub.search_images W h payload s = (Ok images, s') →
  ∃ resp data,
    transport W (requests s) (Hub.search_request h payload) = Got resp
    ∧ status resp = 200 ∧ json_of resp = Got data
    ∧ (Hub.select_images data = Ok (Some images)
       ∨ (Hub.select_images data = Ok None ∧ images = [])).
Proof.
  unfold Hub.search_images. intros E.
  apply bind_inv in E as ([] & s1 & [= <-] & E).
  apply bind_inv in E as (resp & s2 & Es & E).
  apply send_inv in Es. simpl in Es.
  apply bind_inv in E as (data & s3 & Ed & E).
  apply bind_inv in E as (selected & s4 & [= Esel _] & E).
  exists resp, data. case_bool_decide as Hst.
  - apply bind_inv in Ed as (body & s5 & _ & Ed).
    apply bind_inv in Ed as ([] & s6 & _ & Ed). discriminate Ed.
  - apply await_inv in Ed as [Ed _].
    split; [done|]. split; [by destruct (decide (status resp = 200))|].
    split; [done|]. destruct selected as [l|].
    + left. injection E as <- _. done.
    + right. apply bind_inv in E as ([] & s5 & _ & [= <- _]). done.
Qed.

Lemma comprehension_ok (keep : json → result bool) (items l : list json) :
  comprehension keep items = Ok l →
  Forall (λ a, keep a = Ok true) l ∧ l ⊆ items.
Proof.
  revert l. induction items as [|a rest IH]; intros l; simpl.
  - intros [= <-]. split; [constructor | done].
  - unfold mbind, result_bind, rbind.
    destruct (keep a) as [[]|] eqn:Ea; [| |done];
      (destruct (comprehension keep rest) as [kept|]; [|done]);
      intros [= <-]; destruct (IH kept eq_refl) as [HF Hsub].
    + split; [by constructor | set_solver].
    + split; [done | set_solver].
Qed.

Lemma eq_str_true (v : json) (s : string) : eq_str v s = true → v = JStr s.
Proof. destruct v; try done. simpl. by intros ->%String.eqb_eq. Qed.

Lemma keep_true (a : json) :
  Hub.keep a = Ok true →
  ∃ d m, a = JObj d ∧ dict_get "type" d = Some (JStr "IMAGE")
         ∧ declared_mime d = Some (JStr m) ∧ lower_string m ∈ Hub.allowed.
Proof.
  destruct a as [| | | | |d]; try done.
  unfold Hub.keep, Hub._mtype, get, mbind, result_bind, rbind.
  destruct (eq_str _ "IMAGE") eqn:Et; [|done].
  apply eq_str_true in Et.
  destruct (dict_get "type" d) as [t|] eqn:Ety; simpl in Et;
    [subst t | discriminate Et].
  intros Hk. exists d. unfold declared_mime.
  destruct (dict_get "originalMimeType" d) as [v|]; simpl in Hk.
  - destruct v as [| | |m| |]; try done. simpl in Hk.
    injection Hk as Hm%bool_decide_eq_true. by exists m.
  - destruct (dict_get "mimeType" d) as [v|]; simpl in Hk.
    + destruct v as [| | |m| |]; try done. simpl in Hk.
      injection Hk as Hm%bool_decide_eq_true. by exists m.
    + discriminate Hk.
Qed.

Lemma allowed_lower (t : string) : t ∈ Hub.allowed → lower_string t = t.
Proof.
  unfold Hub.allowed. rewrite !elem_of_cons, elem_of_nil.
  intros [->|[->|[->|[->|[->|[->|[]]]]]]]; reflexivity.
Qed.

(** C5. Every entry of a list that [search_images] returns is an object whose
    [type] is IMAGE and whose MIME type, read from [originalMimeType] when
    that field is present and from [mimeType] otherwise, equals a member of
    the allow-list up to the case of its letters. The list is returned for an
    answer of status 200, and its entries are entries of that answer. *)
Theorem search_images_keeps_allowed_images
  (W : world) (h : ImmichHub) (payload : pydict) (s s' : sys) (images : list json) :
  Hub.search_images W h payload s = (Ok images, s') →
  (∃ resp, transport W (requests s) (Hub.search_request h payload) = Got resp
           ∧ status resp = 200)
  ∧ Forall (λ a, ∃ d m t,
        a = JObj d ∧ dict_get "type" d = Some (JStr "IMAGE")
        ∧ declared_mime d = Some (JStr m)
        ∧ t ∈ Hub.allowed ∧ same_up_to_case m t) images.
Proof.
  intros E.
  apply search_images_inv in E as (resp & data & Et & Hst & _ & Hsel).
  split; [eauto|].
  destruct Hsel as [Hsel | [_ ->]]; [|constructor].
  unfold Hub.select_images, mbind, result_bind, rbind in Hsel.
  destruct (Hub.extract_assets data) as [[assets|]|]; [|done|done].
  destruct (iter assets) as [items|]; [|done].
  destruct (comprehension Hub.keep items) as [l|] eqn:El; [|done].
  injection Hsel as <-. apply comprehension_ok in El as [HF _].
  eapply Forall_impl; [exact HF|]. intros a (d & m & -> & Hty & Hm & Hin)%keep_true.
  exists d, m, (lower_string m). repeat split; [done..|].
  unfold same_up_to_case. by rewrite (allowed_lower _ Hin).
Qed.

Lemma search_images_keeps_allowed_images_witness :
  let s0 := start ImmichImageFavorite in
  let kept := [entry "jpeg" "IMAGE" [("originalMimeType", JStr "image/JPEG")];
               entry "both" "IMAGE" [("mimeType", JStr "video/mp4");
                                     ("originalMimeType", JStr "image/png")];
               entry "legacy" "IMAGE" [("mimeType", JStr "image/HEIC")]] in
  (Hub.search_images mixed_library hub0 [] s0).1 = Ok kept
  ∧ Forall (λ a, ∃ d m t,
        a = JObj d ∧ dict_get "type" d = Some (JStr "IMAGE")
        ∧ declared_mime d = Some (JStr m)
        ∧ t ∈ Hub.allowed ∧ same_up_to_case m t) kept.
Proof.
  intros s0 kept. split; [reflexivity|].
  apply (search_images_keeps_allowed_images mixed_library hub0 [] s0
           (Hub.search_images mixed_library hub0 [] s0).2 kept).
  reflexivity.
Defined.

Lemma search_images_200
  (W : world) (h : ImmichHub) (payload : pydict) (s : sys) (resp : response)
  (data : json) :
  transport W (requests s) (Hub.search_request h payload) = Got resp →
  status resp = 200 → json_of resp = Got data →
  (Hub.search_images W h payload s).1 =
    match Hub.select_images data with
    | Ok (Some images) => Ok images
    | Ok None => Ok []
    | Raise e => Raise e
    end.
Proof.
  intros Et Hst Ed. unfold Hub.search_images, log, emit, send.
  unfold mbind at 1 2, M_bind at 1 2. cbn [requests]. rewrite Et.
  rewrite bool_decide_eq_false_2 by (by intros []).
  unfold mbind at 1, M_bind at 1. unfold await. rewrite Ed.
  unfold lift, mbind, M_bind.
  by destruct (Hub.select_images data) as [[images|]|e].
Qed.

Lemma extract_assets_obj (d : pydict) :
  Hub.extract_assets (JObj d) =
    Ok match dict_get "items" d with
       | Some (JList l) => Some (JList l)
       | _ => match dict_get "assets" d with
              | Some (JObj n) => Some (default (JList []) (dict_get "items" n))
              | _ => None
              end
       end.
Proof.
  unfold Hub.extract_assets, contains, subscript.
  destruct (dict_get "items" d) as [[]|]; destruct (dict_get "assets" d) as [[]|];
    reflexivity.
Qed.

(** C6, as the code has it. Let the search be answered with status 200 and a
    body that is a JSON object. If the object has a field [items] that is a
    list, the extractor uses that list. Otherwise, if it has a field [assets]
    that is an object, the extractor uses the [items] of that object, and the
    empty list when there is none. If it has neither, the search returns the
    empty list and raises nothing. *)
Theorem search_images_extraction
  (W : world) (h : ImmichHub) (payload : pydict) (s : sys) (resp : response)
  (d : pydict) :
  transport W (requests s) (Hub.search_request h payload) = Got resp →
  status resp = 200 → json_of resp = Got (JObj d) →
  (∀ l, dict_get "items" d = Some (JList l) →
     Hub.extract_assets (JObj d) = Ok (Some (JList l))
     ∧ (Hub.search_images W h payload s).1 = comprehension Hub.keep l)
  ∧ (∀ n, (∀ l, dict_get "items" d ≠ Some (JList l)) →
     dict_get "assets" d = Some (JObj n) →
     Hub.extract_assets (JObj d)
       = Ok (Some (default (JList []) (dict_get "items" n)))
     ∧ ∀ l, default (JList []) (dict_get "items" n) = JList l →
            (Hub.search_images W h payload s).1 = comprehension Hub.keep l)
  ∧ ((∀ l, dict_get "items" d ≠ Some (JList l)) →
     (∀ n, dict_get "assets" d ≠ Some (JObj n)) →
     Hub.extract_assets (JObj d) = Ok None
     ∧ (Hub.search_images W h payload s).1 = Ok []).
Proof.
  intros Et Hst Ed.
  rewrite (search_images_200 W h payload s resp (JObj d) Et Hst Ed).
  unfold Hub.select_images. rewrite extract_assets_obj.
  unfold mbind, result_bind, rbind. split; [|split].
  - intros l ->. split; [done|]. simpl.
    by destruct (comprehension Hub.keep l).
  - intros n Hflat ->.
    assert (match dict_get "items" d with
            | Some (JList l) => Some (JList l)
            | _ => Some (default (JList []) (dict_get "items" n))
            end = Some (default (JList []) (dict_get "items" n))) as ->.
    { destruct (dict_get "items" d) as [[| | | |l|]|] eqn:Ei; try done.
      by destruct (Hflat l). }
    split; [done|]. intros l ->. simpl. by destruct (comprehension Hub.keep l).
  - intros Hflat Hnested.
    assert (match dict_get "items" d with
            | Some (JList l) => Some (JList l)
            | _ => match dict_get "assets" d with
                   | Some (JObj n) => Some (default (JList []) (dict_get "items" n))
                   | _ => None
                   end
            end = None) as ->; [|done].
    destruct (dict_get "items" d) as [[| |k| |l|]|] eqn:Ei;
      try (by destruct (Hflat l));
      destruct (dict_get "assets" d) as [[| | | | |o]|] eqn:Ea; try done;
      by destruct (Hnested o).
Qed.

Lemma search_images_extraction_witness :
  let s0 := start ImmichImageFavorite in
  let a := image_asset "a" in
  (Hub.search_images (answering (JObj [("items", JList [a])])) hub0 [] s0).1
    = Ok [a]
  ∧ (Hub.search_images (answering (nested (JList [a]))) hub0 [] s0).1 = Ok [a]
  ∧ (Hub.search_images (answering (JObj [("assets", JObj [])])) hub0 [] s0).1
    = Ok []
  ∧ (Hub.search_images (answering (JObj [("assets", JList [a])])) hub0 [] s0).1
    = Ok [].
Proof.
  intros s0 a. split; [|split; [|split]].
  - apply (proj1 (search_images_extraction
                    (answering (JObj [("items", JList [a])])) hub0 [] s0
                    (ok_json (JObj [("items", JList [a])])) _
                    eq_refl eq_refl eq_refl) [a] eq_refl).
  - refine (proj2 (proj1 (proj2 (search_images_extraction
                    (answering (nested (JList [a]))) hub0 [] s0
                    (ok_json (nested (JList [a]))) _
                    eq_refl eq_refl eq_refl)) [("items", JList [a])] _ eq_refl)
              [a] eq_refl).
    intros l. discriminate.
  - refine (proj2 (proj1 (proj2 (search_images_extraction
                    (answering (JObj [("assets", JObj [])])) hub0 [] s0
                    (ok_json (JObj [("assets", JObj [])])) _
                    eq_refl eq_refl eq_refl)) [] _ eq_refl)
              [] eq_refl).
    intros l. discriminate.
  - refine (proj2 (proj2 (proj2 (search_images_extraction
                    (answering (JObj [("assets", JList [a])])) hub0 [] s0
                    (ok_json (JObj [("assets", JList [a])])) _
                    eq_refl eq_refl eq_refl)) _ _)).
    + intros l. discriminate.
    + intros n. discriminate.
Defined.

(** The claim as stated reaches further: a body of another shape should give
    the empty list. A body that is no object, and an object whose nested
    [items] is no list, are of neither recognised shape, and the search
    raises [TypeError] on both. *)
Lemma search_images_raises_on_other_shapes :
  let s0 := start ImmichImageFavorite in
  (¬ flat_shape JNull ∧ ¬ nested_shape JNull
   ∧ status (ok_json JNull) = 200
   ∧ (Hub.search_images (answering JNull) hub0 [] s0).1 = Raise TypeError)
  ∧ (¬ flat_shape (nested JNull) ∧ ¬ nested_shape (nested JNull)
     ∧ (Hub.search_images (answering (nested JNull)) hub0 [] s0).1
       = Raise TypeError).
Proof.
  intros s0. split; [split; [|split; [|split]] | split; [|split]];
    try reflexivity.
  - by intros (d & l & E & _).
  - by intros (d & n & E & _).
  - intros (d & l & [= <-] & E). discriminate E.
  - intros (d & n & [= <-] & [= <-] & [E | (l & E)]); discriminate E.
Qed.

(** ** Download and metadata *)

Lemma download_asset_eval (W : world) (h : ImmichHub) (asset_id : string) (s : sys) :
  (Hub.download_asset W h asset_id s).1 =
    match transport W (requests s) (Hub.download_request h asset_id) with
    | Fails ClientFault => Raise CannotConnect
    | Fails OtherFault => Raise ForeignError
    | Got resp =>
        if bool_decide (status resp ≠ 200) then Ok None
        else if bool_decide (content_type resp ∉ _ALLOWED_MIME_TYPES) then Ok None
        else match read resp with
             | Got b => Ok (Some b)
             | Fails ClientFault => Raise CannotConnect
             | Fails OtherFault => Raise ForeignError
             end
    end.
Proof.
  unfold Hub.download_asset, except_ClientError, send, mbind, M_bind.
  destruct (transport W (requests s) _) as [resp|[]]; [|done|done].
  repeat case_bool_decide; [done | done |].
  unfold await, lift. by destruct (read resp) as [b|[]].
Qed.

(** C9. [download_asset] returns [None], and raises nothing, when the answer
    has a status outside the successful ones or declares a content type that
    is neither image/png nor image/jpeg. It raises [CannotConnect] exactly
    when the transport fails with a client error: on the request, or while the
    body of an accepted answer is read. *)
Theorem download_asset_no_bytes
  (W : world) (h : ImmichHub) (asset_id : string) (s : sys) :
  (∀ resp,
     transport W (requests s) (Hub.download_request h asset_id) = Got resp →
     ¬ (200 ≤ status resp < 300)
     ∨ content_type resp ∉ ["image/png"; "image/jpeg"] →
     (Hub.download_asset W h asset_id s).1 = Ok None)
  ∧ ((Hub.download_asset W h asset_id s).1 = Raise CannotConnect ↔
     transport W (requests s) (Hub.download_request h asset_id) = Fails ClientFault
     ∨ ∃ resp,
         transport W (requests s) (Hub.download_request h asset_id) = Got resp
         ∧ status resp = 200
         ∧ content_type resp ∈ ["image/png"; "image/jpeg"]
         ∧ read resp = Fails ClientFault).
Proof.
  rewrite download_asset_eval. split.
  - intros resp -> Hno. repeat case_bool_decide; try done.
    destruct Hno as [Hst | Hct]; [lia | done].
  - destruct (transport W (requests s) _) as [resp|[]].
    + case_bool_decide as Hst; [|case_bool_decide as Hct].
      * split; [done|]. intros [? | (resp' & [= <-] & ? & _)]; done.
      * split; [done|]. intros [? | (resp' & [= <-] & _ & ? & _)]; done.
      * assert (status resp = 200) by (by destruct (decide (status resp = 200))).
        assert (content_type resp ∈ _ALLOWED_MIME_TYPES)
          by (by destruct (decide (content_type resp ∈ _ALLOWED_MIME_TYPES))).
        destruct (read resp) as [b|[]] eqn:Er; split; try done.
        -- intros [? | (resp' & [= <-] & _ & _ & ?)]; congruence.
        -- intros _. right. by exists resp.
        -- intros [? | (resp' & [= <-] & _ & _ & ?)]; congruence.
    + split; [by left | done].
    + split; [done|]. intros [? | (resp' & ? & _)]; done.
Qed.

Lemma download_asset_no_bytes_witness :
  let s0 := start ImmichImageFavorite in
  (Hub.download_asset dead_links hub0 "a" s0).1 = Ok None
  ∧ (Hub.download_asset pdf_only hub0 "a" s0).1 = Ok None
  ∧ (Hub.download_asset unreachable hub0 "a" s0).1 = Raise CannotConnect.
Proof.
  intros s0. split; [|split].
  - apply (proj1 (download_asset_no_bytes dead_links hub0 "a" s0)
             (refusal 404) eq_refl).
    left. cbn. lia.
  - apply (proj1 (download_asset_no_bytes pdf_only hub0 "a" s0)
             pdf_response eq_refl).
    right. cbn. rewrite !elem_of_cons, elem_of_nil. by intros [|[|]].
  - apply (proj2 (download_asset_no_bytes unreachable hub0 "a" s0)).
    by left.
Defined.

(** ** The update loop *)

(** C7. Where [_get_next_asset_id] yields [None], the update returns at once
    and raises nothing; the image, the attributes and the time of the last
    update are what they were. *)
Theorem load_and_cache_without_asset (W : world) (s s' : sys) (turns : nat) :
  _get_next_asset_id W s = (Ok None, s') →
  _load_and_cache_next_image W (S turns) s = (Ok Finished, s')
  ∧ _current_image_bytes (self s') = _current_image_bytes (self s)
  ∧ _attr_extra_state_attributes (self s') = _attr_extra_state_attributes (self s)
  ∧ _attr_image_last_updated (self s') = _attr_image_last_updated (self s).
Proof.
  intros E. split.
  - simpl. unfold load_turn.
    unfold mbind at 1, M_bind at 1. unfold mbind at 1, M_bind at 1.
    by rewrite E.
  - destruct (frames_get_next W s) as [(_ & _ & Hd) _]. rewrite E in Hd.
    unfold displayed in Hd. simpl in Hd. by injection Hd as -> -> ->.
Qed.

Lemma load_and_cache_without_asset_witness :
  let s0 := pooled [] 0 in
  _load_and_cache_next_image empty_library 1 s0
    = (Ok Finished, (_get_next_asset_id empty_library s0).2)
  ∧ _current_image_bytes (self (_get_next_asset_id empty_library s0).2) = None.
Proof.
  intros s0.
  destruct (load_and_cache_without_asset empty_library s0
              (_get_next_asset_id empty_library s0).2 0 eq_refl) as (H1 & H2 & _).
  split; [exact H1 | exact H2].
Defined.

Lemma choose_good (W : world) (s : sys) :
  good_pool (pool s) →
  ∃ i, (choose W s).1 = Ok (Some i) ∧ i ≠ "" ∧ self (choose W s).2 = self s.
Proof.
  intros (ids & E & Hne & Hblank).
  destruct (choose_frame W s) as (r & Er & Hs & _).
  pose proof (choose_result W s) as Hc.
  destruct (choose W s) as [[[i|]|e] s'] eqn:Ec; simpl in *; [| |done].
  - exists i. split; [done|]. split; [|done].
    destruct Hc as (ids' & E' & Hi). unfold pool in *. rewrite Hs, E in E'.
    injection E' as <-. by intros ->.
  - unfold pool in *. rewrite Hs, E in Hc. by destruct Hc as [|[= ->]].
Qed.

(** With a pool that is good if it is fresh, and is made good by the refresh
    if it is stale, the next asset id is there, and is not blank. *)
Lemma get_next_good (W : world) (s : sys) :
  (fresh W s → good_pool (pool s)) →
  (stale W s →
     ∃ ids s2, _refresh_available_asset_ids W (at_refresh W s) = (Ok (Some ids), s2)
               ∧ ids ≠ [] ∧ "" ∉ ids) →
  ∃ i s1, _get_next_asset_id W s = (Ok (Some i), s1) ∧ i ≠ ""
          ∧ good_pool (pool s1).
Proof.
  intros Hpool Href.
  assert (∀ s0, _get_next_asset_id W s = choose W s0 → good_pool (pool s0) →
            ∃ i s1, _get_next_asset_id W s = (Ok (Some i), s1) ∧ i ≠ ""
                    ∧ good_pool (pool s1)) as Hfin.
  { intros s0 -> Hg. destruct (choose_good W s0 Hg) as (i & Ei & Hi & Hs).
    exists i, (choose W s0).2. split; [|split; [done|]].
    - destruct (choose W s0); simpl in *. by subst.
    - unfold pool. by rewrite Hs. }
  destruct (fresh_or_stale W s) as [Hf | Hst].
  - apply (Hfin (after_now s)); [by apply get_next_fresh|]. exact (Hpool Hf).
  - destruct (Href Hst) as (ids & s2 & Er & Hne & Hblank).
    eapply Hfin; [by apply (get_next_stale_ok W s s2 (Some ids))|].
    by exists ids.
Qed.

Lemma load_turn_continued (W : world) (s : sys) :
  (fresh W s → good_pool (pool s)) →
  (stale W s →
     ∃ ids s2, _refresh_available_asset_ids W (at_refresh W s) = (Ok (Some ids), s2)
               ∧ ids ≠ [] ∧ "" ∉ ids) →
  (∀ asset_id s1, _get_next_asset_id W s = (Ok (Some asset_id), s1) →
     no_bytes (Hub.download_asset W (hub (self s1)) asset_id s1).1) →
  ∃ s', load_turn W s = (Ok Continued, s')
        ∧ same_view (self s) (self s') ∧ good_pool (pool s')
        ∧ sleeps (trace s') = 1 :: sleeps (trace s).
Proof.
  intros Hpool Href Hdl.
  destruct (get_next_good W s Hpool Href) as (i & s1 & En & Hi & Hg).
  destruct (frames_get_next W s) as [Hview Hsl]. rewrite En in Hview, Hsl.
  simpl in Hview, Hsl. destruct Hview as (Hc & Hh & Hd).
  specialize (Hdl i s1 En).
  unfold load_turn. rewrite (bind_ok _ _ _ _ _ En).
  destruct i as [|c i]; [done|].
  unfold get_self. unfold mbind at 1, M_bind at 1.
  destruct (frames_download_asset W (hub (self s1)) (String c i) s1) as [Hs2 Hsl2].
  unfold mbind at 1, M_bind at 1.
  destruct (Hub.download_asset W (hub (self s1)) (String c i) s1) as [r s2].
  simpl in Hs2, Hsl2, Hdl.
  assert (∃ s', (sleep 1;; mret Continued) s2 = (Ok Continued, s')
                ∧ self s' = self s2 ∧ sleeps (trace s') = 1 :: sleeps (trace s2))
    as (s' & Es & Hs' & Hsl') by (by eexists).
  exists s'. split.
  - by destruct Hdl as [-> | ->].
  - rewrite Hs', <- Hs2, Hsl', Hsl2, Hsl. unfold pool in *.
    by rewrite Hs', <- Hs2.
Qed.

(** C8, as the code has it. Let every pool the loop selects from be non-empty
    and free of the blank id: the pool the entity holds, if the first turn
    finds it fresh, and the pool of every refresh that a turn of the loop
    performs, each of these refreshes returning. Let every download that a
    turn of the loop attempts return no bytes. Then the update never returns
    and never raises: after any number of turns it is still in its loop,
    shows what it showed, and has slept one second after each attempt. *)
Theorem load_and_cache_retries_forever (W : world) (s : sys) :
  (fresh W s → good_pool (pool s)) →
  (∀ k, stale W (turn_start W k s) →
     ∃ ids s2,
       _refresh_available_asset_ids W (at_refresh W (turn_start W k s))
       = (Ok (Some ids), s2)
       ∧ ids ≠ [] ∧ "" ∉ ids) →
  (∀ k asset_id s1,
     _get_next_asset_id W (turn_start W k s) = (Ok (Some asset_id), s1) →
     no_bytes (Hub.download_asset W (hub (self s1)) asset_id s1).1) →
  retries_forever W s.
Proof.
  intros Hpool Href Hdl n. revert s Hpool Href Hdl.
  induction n as [|n IH]; intros s Hpool Href Hdl.
  - exists s. by repeat split.
  - destruct (load_turn_continued W s Hpool (Href 0%nat) (Hdl 0%nat))
      as (s' & Et & (Hc & Hh & Hd) & Hg & Hsl).
    destruct (IH s') as (s_n & En & Hdn & Hsn).
    + by intros _.
    + intros k. specialize (Href (S k)). simpl in Href. by rewrite Et in Href.
    + intros k. specialize (Hdl (S k)). simpl in Hdl. by rewrite Et in Hdl.
    + exists s_n. split; [|split].
      * simpl. by rewrite (bind_ok _ _ _ _ _ Et).
      * congruence.
      * rewrite Hsn, Hsl. simpl.
        change (1 :: sleeps (trace s)) with ([1] ++ sleeps (trace s))%list.
        by rewrite app_assoc, <- repeat_cons.
Qed.

Lemma at_refresh_self (W : world) (s : sys) : self (at_refresh W s) = self s.
Proof.
  unfold at_refresh, is_stale, get_self, now, log, emit, mbind, M_bind, mret, M_ret.
  by destruct (_available_asset_ids_last_updated (self s)).
Qed.

(** On the server of the dead links, a favourites entity refreshes to the
    pool of the one image at every turn that refreshes, and downloads nothing
    at any turn. *)
Lemma dead_links_turns (s : sys) :
  class_of (self s) = ImmichImageFavorite → hub (self s) = hub0 →
  (fresh dead_links s → good_pool (pool s)) →
  (∀ k, stale dead_links (turn_start dead_links k s) →
     ∃ ids s2,
       _refresh_available_asset_ids dead_links
         (at_refresh dead_links (turn_start dead_links k s))
       = (Ok (Some ids), s2)
       ∧ ids ≠ [] ∧ "" ∉ ids)
  ∧ (∀ k asset_id s1,
       _get_next_asset_id dead_links (turn_start dead_links k s)
       = (Ok (Some asset_id), s1) →
       no_bytes (Hub.download_asset dead_links (hub (self s1)) asset_id s1).1).
Proof.
  assert (∀ s1, class_of (self s1) = ImmichImageFavorite → hub (self s1) = hub0 →
            ∃ ids s2, _refresh_available_asset_ids dead_links s1
                      = (Ok (Some ids), s2) ∧ ids ≠ [] ∧ "" ∉ ids) as Href.
  { intros [[c h b ids t attrs u] k1 k2 k3 tr] Hc Hh. simpl in Hc, Hh. subst c h.
    exists ["a"]. eexists. split; [reflexivity|]. split; [done|].
    rewrite elem_of_cons, elem_of_nil. by intros [|]. }
  assert (∀ h asset_id s1,
            no_bytes (Hub.download_asset dead_links h asset_id s1).1) as Hdl.
  { intros h asset_id s1. left. rewrite download_asset_eval.
    cbn [dead_links library transport Hub.download_request req_verb].
    by destruct (is_substring _ _). }
  assert (∀ k s0,
            class_of (self s0) = ImmichImageFavorite → hub (self s0) = hub0 →
            (fresh dead_links s0 → good_pool (pool s0)) →
            class_of (self (turn_start dead_links k s0)) = ImmichImageFavorite
            ∧ hub (self (turn_start dead_links k s0)) = hub0) as Hturns.
  { induction k as [|k IH]; intros s0 Hc Hh Hp; [done|]. simpl.
    destruct (load_turn_continued dead_links s0 Hp) as (s' & Et & (Hc' & Hh' & _) & Hg & _).
    - intros _. apply Href; by rewrite at_refresh_self.
    - intros asset_id s1 _. apply Hdl.
    - rewrite Et. simpl. apply IH; [congruence | congruence | done]. }
  intros Hc Hh Hp. split.
  - intros k _. destruct (Hturns k s Hc Hh Hp) as [Hck Hhk].
    apply Href; by rewrite at_refresh_self.
  - intros k asset_id s1 _. apply Hdl.
Qed.

Lemma load_and_cache_retries_forever_witness :
  retries_forever dead_links (start ImmichImageFavorite)
  ∧ retries_forever dead_links (pooled ["a"] 0).
Proof.
  assert (fresh dead_links (start ImmichImageFavorite) →
          good_pool (pool (start ImmichImageFavorite))) as H0.
  { intros (last & E & _). discriminate E. }
  assert (fresh dead_links (pooled ["a"] 0) → good_pool (pool (pooled ["a"] 0)))
    as H1.
  { intros _. exists ["a"]. split; [done|]. split; [done|].
    rewrite elem_of_cons, elem_of_nil. by intros [|]. }
  split.
  - destruct (dead_links_turns (start ImmichImageFavorite) eq_refl eq_refl H0)
      as [Href Hdl].
    exact (load_and_cache_retries_forever dead_links (start ImmichImageFavorite)
             H0 Href Hdl).
  - destruct (dead_links_turns (pooled ["a"] 0) eq_refl eq_refl H1) as [Href Hdl].
    exact (load_and_cache_retries_forever dead_links (pooled ["a"] 0)
             H1 Href Hdl).
Defined.

(** The claim as stated asks no more of the pool than to be non-empty. With
    the pool [[""]], kept so by every refresh, and every download returning
    no bytes, the update returns in its first turn, without a sleep: the
    blank id counts as no id. *)
Lemma blank_id_ends_the_loop :
  let s := pooled [""] 0 in
  pool s = Some [""]
  ∧ (∀ s1, class_of (self s1) = ImmichImageFavorite → hub (self s1) = hub0 →
       (_refresh_available_asset_ids blank_id s1).1 = Ok (Some [""]))
  ∧ (∀ asset_id s1, no_bytes (Hub.download_asset blank_id hub0 asset_id s1).1)
  ∧ (_load_and_cache_next_image blank_id 1 s).1 = Ok Finished
  ∧ sleeps (trace (_load_and_cache_next_image blank_id 1 s).2) = []
  ∧ ¬ retries_forever blank_id s.
Proof.
  intros s. split; [reflexivity|]. split; [|split; [|split; [|split]]].
  - intros [[c h b ids t attrs u] k1 k2 k3 tr] Hc Hh. simpl in Hc, Hh. subst c h.
    reflexivity.
  - intros asset_id s1. left. rewrite download_asset_eval.
    cbn [blank_id library transport Hub.download_request req_verb].
    by destruct (is_substring _ _).
  - reflexivity.
  - reflexivity.
  - intros H. destruct (H 1%nat) as (s_n & E & _). discriminate E.
Qed.

(** Nor is a non-empty pool without the blank id enough. With the pool
    [["a"]] grown stale, every search refused and every download returning no
    bytes, the first turn refreshes the pool, the refresh raises, and so does
    the update, without a sleep. *)
Lemma failing_refresh_ends_the_loop :
  let s := pooled ["a"] 0 in
  good_pool (pool s)
  ∧ (∀ h asset_id s1,
       no_bytes (Hub.download_asset refused_search h asset_id s1).1)
  ∧ stale refused_search s
  ∧ (_load_and_cache_next_image refused_search 1 s).1 = Raise ApiError
  ∧ sleeps (trace (_load_and_cache_next_image refused_search 1 s).2) = []
  ∧ ¬ retries_forever refused_search s.
Proof.
  intros s. split; [|split; [|split; [|split; [|split]]]].
  - exists ["a"]. split; [done|]. split; [done|].
    rewrite elem_of_cons, elem_of_nil. by intros [|].
  - intros h asset_id s1. left. by rewrite download_asset_eval.
  - right. exists 0. split; [reflexivity|]. by vm_compute.
  - reflexivity.
  - reflexivity.
  - intros H. destruct (H 1%nat) as (s_n & E & _). discriminate E.
Qed.

(** ** Metadata *)

Lemma get_asset_info_eval (W : world) (h : ImmichHub) (asset_id : string) (s : sys) :
  (Hub.get_asset_info W h asset_id s).1 =
    match transport W (requests s) (Hub.asset_info_request h asset_id) with
    | Fails ClientFault => Raise CannotConnect
    | Fails OtherFault => Raise ForeignError
    | Got resp =>
        if bool_decide (status resp ≠ 200) then
          match text resp with
          | Got _ => Raise ApiError
          | Fails ClientFault => Raise CannotConnect
          | Fails OtherFault => Raise ForeignError
          end
        else
          match json_of resp with
          | Got v => Ok v
          | Fails ClientFault => Raise CannotConnect
          | Fails OtherFault => Raise ForeignError
          end
    end.
Proof.
  unfold Hub.get_asset_info, except_ClientError, send, mbind, M_bind.
  destruct (transport W (requests s) _) as [resp|[]]; [|done|done].
  case_bool_decide; unfold await, lift.
  - by destruct (text resp) as [b|[]].
  - by destruct (json_of resp) as [b|[]].
Qed.

Lemma load_turn_loaded
  (W : world) (s s1 s2 s3 : sys) (asset_id : string) (b : bytes) (d : pydict) :
  _get_next_asset_id W s = (Ok (Some asset_id), s1) → asset_id ≠ "" →
  Hub.download_asset W (hub (self s1)) asset_id s1 = (Ok (Some b), s2) → b ≠ [] →
  Hub.get_asset_info W (hub (self s1)) asset_id s2 = (Ok (JObj d), s3) →
  ∃ s', load_turn W s = (Ok Loaded, s')
        ∧ _current_image_bytes (self s') = Some b
        ∧ _attr_extra_state_attributes (self s')
          = attributes_of d (_attr_extra_state_attributes (self s3))
        ∧ _attr_image_last_updated (self s')
          = Some (datetime_now W (clock_reads s3)).
Proof.
  intros En Hid Ed Hb Ei. unfold load_turn.
  rewrite (bind_ok _ _ _ _ _ En).
  destruct asset_id as [|c i]; [done|].
  unfold get_self. unfold mbind at 1, M_bind at 1.
  rewrite (bind_ok _ _ _ _ _ Ed).
  destruct b as [|b0 b]; [done|].
  rewrite (bind_ok _ _ _ _ _ Ei).
  eexists. split; [reflexivity|]. by repeat split.
Qed.

(** C10, as the code has it. [get_asset_info] returns only what the body of
    an answer of status 200 decodes to, and raises on every other status
    ([ApiError] once the body is read); it has no path of its own that
    returns [None]. So when that body is a JSON object, the update reads the
    file name, the EXIF data and the local time from an object, and
    completes the load. *)
Theorem get_asset_info_returns_the_body
  (W : world) (h : ImmichHub) (asset_id : string) (s : sys) :
  (∀ v, (Hub.get_asset_info W h asset_id s).1 = Ok v →
     ∃ resp, transport W (requests s) (Hub.asset_info_request h asset_id) = Got resp
             ∧ status resp = 200 ∧ json_of resp = Got v)
  ∧ (∀ resp,
       transport W (requests s) (Hub.asset_info_request h asset_id) = Got resp →
       status resp ≠ 200 →
       (∃ e, (Hub.get_asset_info W h asset_id s).1 = Raise e)
       ∧ ∀ body, text resp = Got body →
                 (Hub.get_asset_info W h asset_id s).1 = Raise ApiError)
  ∧ (∀ s0 s1 s2 s3 b d,
       _get_next_asset_id W s0 = (Ok (Some asset_id), s1) → asset_id ≠ "" →
       Hub.download_asset W (hub (self s1)) asset_id s1 = (Ok (Some b), s2) →
       b ≠ [] →
       Hub.get_asset_info W (hub (self s1)) asset_id s2 = (Ok (JObj d), s3) →
       ∃ s', load_turn W s0 = (Ok Loaded, s')
             ∧ _current_image_bytes (self s') = Some b
             ∧ _attr_extra_state_attributes (self s')
               = attributes_of d (_attr_extra_state_attributes (self s3))).
Proof.
  rewrite get_asset_info_eval. split; [|split].
  - intros v. destruct (transport W (requests s) _) as [resp|[]]; [|done|done].
    case_bool_decide as Hst.
    + by destruct (text resp) as [?|[]].
    + destruct (json_of resp) as [v'|[]] eqn:Ej; [|done|done].
      intros [= ->]. exists resp.
      by destruct (decide (status resp = 200)).
  - intros resp -> Hst. rewrite bool_decide_eq_true_2 by done. split.
    + destruct (text resp) as [?|[]]; by eexists.
    + by intros body ->.
  - intros s0 s1 s2 s3 b d En Hid Ed Hb Ei.
    destruct (load_turn_loaded W s0 s1 s2 s3 asset_id b d En Hid Ed Hb Ei)
      as (s' & E & H1 & H2 & _).
    by exists s'.
Qed.

Lemma get_asset_info_returns_the_body_witness :
  let s0 := start ImmichImageFavorite in
  (Hub.get_asset_info dead_links hub0 "a" s0).1 = Raise ApiError
  ∧ ∃ s', load_turn photo_server s0 = (Ok Loaded, s')
          ∧ _current_image_bytes (self s') = Some jpeg
          ∧ _attr_extra_state_attributes (self s') !! "media_filename"
            = Some (JStr "x.jpg").
Proof.
  intros s0.
  pose proof (get_asset_info_returns_the_body dead_links hub0 "a" s0)
    as (_ & H404 & _).
  pose proof (get_asset_info_returns_the_body photo_server hub0 "a" s0)
    as (_ & _ & Hload).
  split.
  - apply (proj2 (H404 (refusal 404) eq_refl ltac:(cbn; lia))
             "{}" eq_refl).
  - destruct (Hload s0 (_get_next_asset_id photo_server s0).2
                (Hub.download_asset photo_server hub0 "a"
                   (_get_next_asset_id photo_server s0).2).2
                (Hub.get_asset_info photo_server hub0 "a"
                   (Hub.download_asset photo_server hub0 "a"
                      (_get_next_asset_id photo_server s0).2).2).2
                jpeg [("originalFileName", JStr "x.jpg")])
      as (s' & E & Hb & Ha);
      [reflexivity | discriminate | reflexivity | by unfold jpeg | reflexivity |].
    exists s'. split; [exact E|]. split; [exact Hb|]. rewrite Ha. reflexivity.
Defined.

(** The claim as stated reaches further: no execution that raises nothing
    should return null. An answer of status 200 whose body is the JSON value
    null is returned as it is, and the update then raises [AttributeError] at
    the first read of the metadata. *)
Lemma null_metadata_is_returned :
  let s0 := start ImmichImageFavorite in
  (Hub.get_asset_info null_metadata hub0 "a" s0).1 = Ok JNull
  ∧ (Hub.download_asset null_metadata hub0 "a" s0).1 = Ok (Some jpeg)
  ∧ (load_turn null_metadata s0).1 = Raise AttributeError
  ∧ (_load_and_cache_next_image null_metadata 1 s0).1 = Raise AttributeError.
Proof. intros s0. repeat split; reflexivity. Qed.

(** * Further properties *)

(** ** Authentication *)

Lemma authenticate_eval (W : world) (h : ImmichHub) (s : sys) :
  (Hub.authenticate W h s).1 =
    match transport W (requests s) (Hub.authenticate_request h) with
    | Fails f => Raise (match f with ClientFault => CannotConnect
                                   | OtherFault => ForeignError end)
    | Got resp =>
        let rejected :=
          match text resp with
          | Got _ => Ok false
          | Fails ClientFault => Raise CannotConnect
          | Fails OtherFault => Raise ForeignError
          end in
        if bool_decide (status resp ≠ 200) then rejected
        else match json_of resp with
             | Got (JObj d) =>
                 if truthy (default JNull (dict_get "authStatus" d))
                 then Ok true else rejected
             | Got _ => Raise AttributeError
             | Fails ClientFault => Raise CannotConnect
             | Fails OtherFault => Raise ForeignError
             end
    end.
Proof.
  unfold Hub.authenticate, except_ClientError, send, mbind, M_bind.
  destruct (transport W (requests s) _) as [resp|[]]; [|done|done].
  cbn zeta. case_bool_decide; unfold await, lift.
  - by destruct (text resp) as [b|[]].
  - destruct (json_of resp) as [[| | | | |d]|[]]; try done.
    cbn [get]. destruct (truthy _); cbn [negb]; [done|].
    by destruct (text resp) as [b|[]].
Qed.

(** X1. [authenticate] returns [True] exactly when the validation is answered
    with status 200 and a JSON object whose [authStatus] is truthy. *)
Theorem authenticate_true_iff (W : world) (h : ImmichHub) (s : sys) :
  (Hub.authenticate W h s).1 = Ok true ↔
  ∃ resp d,
    transport W (requests s) (Hub.authenticate_request h) = Got resp
    ∧ status resp = 200 ∧ json_of resp = Got (JObj d)
    ∧ truthy (default JNull (dict_get "authStatus" d)) = true.
Proof.
  rewrite authenticate_eval. split.
  - destruct (transport W (requests s) _) as [resp|[]]; [|done|done].
    cbn zeta. case_bool_decide as Hst.
    + by destruct (text resp) as [b|[]].
    + destruct (json_of resp) as [[| | | | |d]|[]] eqn:Ej; try done.
      destruct (truthy _) eqn:Et.
      * intros _. exists resp, d.
        by destruct (decide (status resp = 200)).
      * by destruct (text resp) as [b|[]].
  - intros (resp & d & -> & Hst & -> & ->). cbn zeta.
    by rewrite bool_decide_eq_false_2 by (by intros []).
Qed.

(** X2. [authenticate] returns [False], and raises nothing, when the answer
    has another status than 200, or is a JSON object whose [authStatus] is
    missing or falsy, provided the body of the answer can be read as text. *)
Theorem authenticate_rejects
  (W : world) (h : ImmichHub) (s : sys) (resp : response) (body : string) :
  transport W (requests s) (Hub.authenticate_request h) = Got resp →
  text resp = Got body →
  status resp ≠ 200
  ∨ (∃ d, json_of resp = Got (JObj d)
          ∧ truthy (default JNull (dict_get "authStatus" d)) = false) →
  (Hub.authenticate W h s).1 = Ok false.
Proof.
  intros Et Eb Hno. rewrite authenticate_eval, Et, Eb. cbn zeta.
  case_bool_decide as Hst; [done|].
  destruct Hno as [Hno | (d & -> & ->)]; done.
Qed.

Lemma authenticate_rejects_witness :
  let s0 := start ImmichImageFavorite in
  (Hub.authenticate (gatekeeper (refusal 401) three_albums) hub0 s0).1 = Ok false
  ∧ (Hub.authenticate
       (gatekeeper (ok_json (JObj [("authStatus", JBool false)])) three_albums)
       hub0 s0).1 = Ok false.
Proof.
  intros s0. split.
  - apply (authenticate_rejects (gatekeeper (refusal 401) three_albums) hub0 s0
             (refusal 401) "{}" eq_refl eq_refl).
    left. discriminate.
  - apply (authenticate_rejects
             (gatekeeper (ok_json (JObj [("authStatus", JBool false)])) three_albums)
             hub0 s0
             (ok_json (JObj [("authStatus", JBool false)])) "" eq_refl eq_refl).
    right. by eexists.
Defined.

(** ** Failures of the transport *)

Lemma except_not_client {A} (m : M A) (s : sys) :
  raised (except_ClientError m) s ≠ Some ClientError.
Proof.
  unfold raised, except_ClientError.
  by destruct (m s) as [[a|[]] s'].
Qed.

Lemma except_send_fault {A} (W : world) (r : request) (k : response → M A) (s : sys) :
  transport W (requests s) r = Fails ClientFault →
  raised (except_ClientError (send W r ≫= k)) s = Some CannotConnect.
Proof.
  intros E. unfold raised, except_ClientError, send, mbind, M_bind.
  by rewrite E.
Qed.

(** X3. None of the seven operations that catch [aiohttp.ClientError] lets it
    out: a client error of the transport on the request comes out as
    [CannotConnect], and [ClientError] itself is never what they raise. *)
Theorem client_errors_are_wrapped
  (W : world) (h : ImmichHub) (s : sys) (asset_id album_id : string) :
  Forall (λ op : request * option exn,
            op.2 ≠ Some ClientError
            ∧ (transport W (requests s) op.1 = Fails ClientFault →
               op.2 = Some CannotConnect))
    [(Hub.authenticate_request h, raised (Hub.authenticate W h) s);
     (Hub.user_info_request h, raised (Hub.get_my_user_info W h) s);
     (Hub.asset_info_request h asset_id,
       raised (Hub.get_asset_info W h asset_id) s);
     (Hub.download_request h asset_id,
       raised (Hub.download_asset W h asset_id) s);
     (favorites_request h, raised (Hub.list_favorite_images W h) s);
     (Hub.albums_request h, raised (Hub.list_all_albums W h) s);
     (album_request h album_id,
       raised (Hub.list_album_images W h album_id) s)].
Proof.
  repeat constructor; try apply except_not_client;
    intros E; by apply except_send_fault.
Qed.

Lemma search_images_fault
  (W : world) (h : ImmichHub) (payload : pydict) (s : sys) (f : fault) :
  transport W (requests s) (Hub.search_request h payload) = Fails f →
  ∃ s', Hub.search_images W h payload s = (Raise (exn_of_fault f), s')
        ∧ self s' = self s.
Proof.
  intros E. unfold Hub.search_images, log, emit, send.
  unfold mbind at 1 2, M_bind at 1 2. cbn [requests]. rewrite E.
  by eexists.
Qed.

(** X4. [search_images] catches nothing: when the transport fails with a
    client error on its request, [search_images] raises that
    [ClientError], not [CannotConnect]. *)
Theorem search_images_leaks_client_error
  (W : world) (h : ImmichHub) (payload : pydict) (s : sys) :
  transport W (requests s) (Hub.search_request h payload) = Fails ClientFault →
  (Hub.search_images W h payload s).1 = Raise ClientError.
Proof.
  intros E. destruct (search_images_fault W h payload s ClientFault E)
    as (s' & -> & _). done.
Qed.

Lemma search_images_leaks_client_error_witness :
  (Hub.search_images unreachable hub0 people_payload
     (start ImmichImageFavorite)).1 = Raise ClientError.
Proof.
  apply (search_images_leaks_client_error unreachable hub0 people_payload
           (start ImmichImageFavorite)).
  reflexivity.
Defined.

Lemma run_all_unreachable
  (W : world) (h : ImmichHub) (base : pydict) (pids : list json) (s : sys) :
  (∀ k r, transport W k r = Fails ClientFault) →
  Forall (λ o, o = Raise ClientError) (run_all (_one W h base <$> pids) s).1.
Proof.
  intros Hdown. revert s. induction pids as [|pid pids IH]; intros s; simpl.
  - constructor.
  - unfold _one at 1.
    destruct (search_images_fault W h (dict_set "personIds" (JList [pid]) base)
                s ClientFault (Hdown _ _)) as (s1 & -> & _).
    specialize (IH s1). destruct (run_all _ s1) as [outs s2]. simpl in *.
    by constructor.
Qed.

Lemma gather_all_fail {A} (W : world) (tasks : list (M A)) (s : sys) (e0 : exn) :
  tasks ≠ [] →
  Forall (λ o, o = Raise e0) (run_all tasks s).1 →
  (gather W tasks s).1 = Raise e0.
Proof.
  intros Hne HF. unfold gather.
  assert (length (run_all tasks s).1 = length tasks) as Hlen.
  { clear. revert s. induction tasks as [|t rest IH]; intros s; simpl; [done|].
    destruct (t s) as [r s1]. specialize (IH s1).
    destruct (run_all rest s1) as [rs s2]. simpl in *. by rewrite IH. }
  destruct (run_all tasks s) as [outs s']. simpl in HF, Hlen.
  assert (Forall (λ e, e = e0) (failures outs)
          ∧ length (failures outs) = length outs) as [Hall Hl].
  { clear Hlen. unfold failures.
    induction HF as [|o rest -> _ [IH1 IH2]]; simpl; [done|].
    split; [by constructor | simpl; f_equal; exact IH2]. }
  destruct (failures outs) as [|e es] eqn:Ef.
  - destruct tasks; [done|]. simpl in *. lia.
  - cbn [fst]. f_equal.
    assert (∀ (l : list exn) i d, Forall (λ x, x = e0) l → d = e0 →
              nth i l d = e0) as Hnth.
    { clear. induction l as [|x l IH]; intros [|i] d Hl Hd; simpl; try done.
      - by inversion Hl.
      - apply IH; [by inversion Hl | done]. }
    apply Hnth; [done | by inversion Hall].
Qed.

(** X5. The first update of a search entity with persons to look for, on a
    server that cannot be reached (every request meets a client error of the
    transport), raises [ClientError] to the host: whichever sub-search fails
    first, the fan-out, the selection and the update loop pass its exception
    on as it is. *)
Theorem update_of_search_entity_leaks_client_error
  (W : world) (s : sys) (payload : pydict) (pid : json) (pids : list json)
  (unique_id name : string) (turns : nat) :
  class_of (self s) = ImmichImageSearch payload unique_id name →
  stamp s = None →
  dict_get "personIds" payload = Some (JList (pid :: pids)) →
  (∀ k r, transport W k r = Fails ClientFault) →
  (_load_and_cache_next_image W (S turns) s).1 = Raise ClientError.
Proof.
  intros Hc Hst Hp Hdown.
  assert (stale W s) as Hstale by (by left).
  assert (at_refresh W s =
            (log DEBUG "Refreshing available asset IDs" s).2) as Hat.
  { unfold at_refresh. by rewrite (bind_ok _ _ _ _ _ (is_stale_unset W s Hst)). }
  assert (∃ s2, _refresh_available_asset_ids W (at_refresh W s)
                = (Raise ClientError, s2)) as [s2 Er].
  { rewrite Hat. unfold _refresh_available_asset_ids, get_self.
    unfold mbind at 1, M_bind at 1. cbn [log emit self fst snd].
    rewrite Hc. rewrite (fan_out_unfold W _ payload (pid :: pids) Hp).
    match goal with |- context [gather W ?tasks ?s0] =>
      pose proof (gather_all_fail W tasks s0 ClientError ltac:(done)
                    (run_all_unreachable W _ _ (pid :: pids) s0 Hdown)) as Hg;
      destruct (gather W tasks s0) as [r s2]
    end.
    simpl in Hg. subst r. by exists s2. }
  simpl. unfold load_turn.
  unfold mbind at 1, M_bind at 1. unfold mbind at 1, M_bind at 1.
  by rewrite (get_next_stale_raise W s s2 ClientError Hstale Er).
Qed.

Lemma update_of_search_entity_leaks_client_error_witness :
  (_load_and_cache_next_image unreachable 1
     (start (ImmichImageSearch people_payload "search_people_of_interest"
               "Immich: People of Interest"))).1 = Raise ClientError.
Proof.
  apply (update_of_search_entity_leaks_client_error unreachable
           (start (ImmichImageSearch people_payload "search_people_of_interest"
                     "Immich: People of Interest"))
           people_payload (JStr "p1") [JStr "p2"]
           "search_people_of_interest" "Immich: People of Interest" 0);
    reflexivity.
Defined.

(** ** What the search returns and sends *)

Lemma comprehension_filter (keep : json → result bool) (f : json → bool)
  (items l : list json) :
  (∀ a b, keep a = Ok b → b = f a) →
  comprehension keep items = Ok l →
  l = List.filter f items ∧ Forall (λ a, ∃ b, keep a = Ok b) items.
Proof.
  intros Hf. revert l. induction items as [|a rest IH]; intros l; simpl.
  - by intros [= <-].
  - unfold mbind, result_bind, rbind.
    destruct (keep a) as [b|] eqn:Ea; [|done].
    destruct (comprehension keep rest) as [kept|]; [|done].
    destruct (IH kept eq_refl) as [-> HF].
    rewrite <- (Hf a b Ea). intros [= <-]. split; [done|].
    constructor; [by exists b | done].
Qed.

Lemma keep_wanted (a : json) (b : bool) : Hub.keep a = Ok b → b = wanted a.
Proof.
  destruct a as [| | | | |d]; try done.
  unfold Hub.keep, Hub._mtype, get, wanted, declared_mime,
    mbind, result_bind, rbind.
  destruct (eq_str _ "IMAGE"); [|by intros [= <-]]. cbn [andb].
  destruct (dict_get "originalMimeType" d) as [v|]; simpl.
  - destruct v; try done. simpl. by intros [= <-].
  - destruct (dict_get "mimeType" d) as [v|]; simpl.
    + destruct v; try done. simpl. by intros [= <-].
    + by intros [= <-].
Qed.

(** X6. [search_images] drops nothing that qualifies: the list it returns is
    the list the extractor found, filtered to the objects of type IMAGE with
    an allowed MIME type, in the order of the answer and with its
    repetitions; it is empty where the extractor found no list. *)
Theorem search_images_returns_all_wanted
  (W : world) (h : ImmichHub) (payload : pydict) (s s' : sys) (images : list json) :
  Hub.search_images W h payload s = (Ok images, s') →
  ∃ resp data,
    transport W (requests s) (Hub.search_request h payload) = Got resp
    ∧ status resp = 200 ∧ json_of resp = Got data
    ∧ match Hub.extract_assets data with
      | Ok (Some assets) =>
          ∃ items, iter assets = Ok items ∧ images = List.filter wanted items
      | Ok None => images = []
      | Raise _ => False
      end.
Proof.
  intros E. apply search_images_inv in E as (resp & data & Et & Hst & Ed & Hsel).
  exists resp, data. repeat (split; [done|]).
  unfold Hub.select_images, mbind, result_bind, rbind in Hsel.
  destruct (Hub.extract_assets data) as [[assets|]|];
    [|by destruct Hsel as [|[_ ->]] | by destruct Hsel as [|[]]].
  destruct (iter assets) as [items|]; [|by destruct Hsel as [|[]]].
  destruct (comprehension Hub.keep items) as [l|] eqn:El;
    [|by destruct Hsel as [|[]]].
  destruct Hsel as [[= ->] | [? _]]; [|done].
  exists items. split; [done|].
  by apply (comprehension_filter Hub.keep wanted items images keep_wanted).
Qed.

Lemma search_images_returns_all_wanted_witness :
  ∃ resp data,
    transport mixed_library 0 (Hub.search_request hub0 []) = Got resp
    ∧ status resp = 200 ∧ json_of resp = Got data
    ∧ match Hub.extract_assets data with
      | Ok (Some assets) =>
          ∃ items, iter assets = Ok items
            ∧ [entry "jpeg" "IMAGE" [("originalMimeType", JStr "image/JPEG")];
               entry "both" "IMAGE" [("mimeType", JStr "video/mp4");
                                     ("originalMimeType", JStr "image/png")];
               entry "legacy" "IMAGE" [("mimeType", JStr "image/HEIC")]]
              = List.filter wanted items
      | Ok None => False
      | Raise _ => False
      end.
Proof.
  destruct (search_images_returns_all_wanted mixed_library hub0 []
              (start ImmichImageFavorite)
              (Hub.search_images mixed_library hub0 []
                 (start ImmichImageFavorite)).2 _ eq_refl)
    as (resp & data & Et & Hst & Ed & H).
  exists resp, data. repeat (split; [done|]).
  injection Et as <-. injection Ed as <-. exact H.
Defined.

Lemma dict_get_absent (k : string) (d : pydict) :
  k ∉ d.*1 → dict_get k d = None.
Proof.
  induction d as [|[k0 v0] d IH]; simpl; [done|].
  rewrite not_elem_of_cons. intros [Hne Hd].
  destruct (String.eqb k k0) eqn:E; [|by apply IH].
  by apply String.eqb_eq in E.
Qed.

Lemma dict_get_merge (k : string) (d1 d2 : pydict) :
  NoDup d2.*1 →
  dict_get k (dict_merge d1 d2)
  = match dict_get k d2 with Some v => Some v | None => dict_get k d1 end.
Proof.
  unfold dict_merge. revert d1.
  induction d2 as [|[k0 v0] d2 IH]; intros d1 Hnd; simpl; [done|].
  apply NoDup_cons in Hnd as [Hk0 Hnd]. rewrite (IH _ Hnd), dict_get_set.
  destruct (String.eqb k k0) eqn:E; [|done].
  apply String.eqb_eq in E as ->. by rewrite (dict_get_absent k0 d2 Hk0).
Qed.

(** X7. The body of a search request holds every key of the caller's payload
    with the caller's value, and besides them the defaults [type] = IMAGE and
    [size] = 400 where the caller gives none: the caller's payload wins. *)
Theorem search_request_payload (h : ImmichHub) (payload : pydict) :
  NoDup payload.*1 →
  ∃ full_payload,
    req_body (Hub.search_request h payload) = JsonBody full_payload
    ∧ ∀ k, dict_get k full_payload
           = match dict_get k payload with
             | Some v => Some v
             | None => search_default k
             end.
Proof.
  intros Hnd. eexists. split; [reflexivity|]. intros k.
  rewrite (dict_get_merge k _ payload Hnd).
  destruct (dict_get k payload); [done|].
  unfold search_default. simpl.
  rewrite (String.eqb_sym k "type"), (String.eqb_sym k "size").
  by repeat case_match.
Qed.

Lemma search_request_payload_witness :
  ∃ full_payload,
    req_body (Hub.search_request hub0 [("type", JStr "VIDEO")])
    = JsonBody full_payload
    ∧ dict_get "type" full_payload = Some (JStr "VIDEO")
    ∧ dict_get "size" full_payload = Some (JNum 400).
Proof.
  destruct (search_request_payload hub0 [("type", JStr "VIDEO")])
    as (full & E & H).
  { apply NoDup_singleton. }
  exists full. split; [exact E|]. split; [apply (H "type") | apply (H "size")].
Defined.

(** ** Listings *)

Lemma except_ok_inv {A} (m : M A) (s s' : sys) (a : A) :
  except_ClientError m s = (Ok a, s') → m s = (Ok a, s').
Proof.
  unfold except_ClientError. by destruct (m s) as [[a'|[]] s1].
Qed.

Lemma send_ok_inv (W : world) (r : request) (s s' : sys) (resp : response) :
  send W r s = (Ok resp, s') →
  transport W (requests s) r = Got resp
  ∧ self s' = self s ∧ trace s' = EvRequest r :: trace s.
Proof.
  unfold send. destruct (transport W (requests s) r); [|done].
  by intros [= <- <-].
Qed.

Lemma lift_inv {A} (r : result A) (s s' : sys) (a : A) :
  lift r s = (Ok a, s') → r = Ok a ∧ s' = s.
Proof. unfold lift. by intros [= -> ->]. Qed.

Lemma is_image_typed (a : json) (b : bool) :
  Hub.is_image a = Ok b → b = typed_image a.
Proof.
  unfold Hub.is_image, typed_image, mbind, result_bind, rbind.
  destruct (subscript a "type"); [by intros [= <-] | done].
Qed.

Lemma filtered_assets_ok (assets : json) (l : list json) :
  Hub.filtered_assets assets = Ok l →
  ∃ items, iter assets = Ok items ∧ l = List.filter typed_image items
           ∧ Forall (λ a, ∃ t, subscript a "type" = Ok t) items.
Proof.
  unfold Hub.filtered_assets, mbind at 1, result_bind, rbind.
  destruct (iter assets) as [items|]; [|done]. intros E.
  apply (comprehension_filter _ typed_image _ _ is_image_typed) in E as [-> HF].
  exists items. split; [done|]. split; [done|].
  eapply Forall_impl; [exact HF|]. intros a [b Hb].
  unfold Hub.is_image, mbind, result_bind, rbind in Hb.
  destruct (subscript a "type") as [t|]; [by exists t | done].
Qed.

(** X8. When [list_album_images] returns, the album was answered with status
    200, and the list returned is the album's [assets] filtered to the
    entries whose [type] is IMAGE, in their order; every entry of the album
    carries a [type]. One request was sent. *)
Theorem list_album_images_returns_images
  (W : world) (h : ImmichHub) (album_id : string) (s s' : sys) (l : list json) :
  Hub.list_album_images W h album_id s = (Ok l, s') →
  ∃ resp album_info assets items,
    transport W (requests s) (album_request h album_id) = Got resp
    ∧ status resp = 200 ∧ json_of resp = Got album_info
    ∧ subscript album_info "assets" = Ok assets ∧ iter assets = Ok items
    ∧ l = List.filter typed_image items
    ∧ Forall (λ a, ∃ t, subscript a "type" = Ok t) items
    ∧ trace s' = EvRequest (album_request h album_id) :: trace s.
Proof.
  unfold Hub.list_album_images. intros E. apply except_ok_inv in E.
  apply bind_inv in E as (resp & s1 & Es & E).
  apply send_ok_inv in Es as (Et & _ & Htr).
  case_bool_decide as Hst.
  { apply bind_inv in E as (? & s2 & _ & E).
    apply bind_inv in E as ([] & s3 & _ & E). discriminate E. }
  apply bind_inv in E as (album_info & s2 & [Ej ->]%await_inv & E).
  apply bind_inv in E as (assets & s3 & [Ea ->]%lift_inv & [El ->]%lift_inv).
  apply filtered_assets_ok in El as (items & Ei & -> & HF).
  exists resp, album_info, assets, items.
  split; [exact Et|]. split; [by destruct (decide (status resp = 200))|].
  repeat (split; [done|]). exact Htr.
Qed.

Lemma list_album_images_returns_images_witness :
  ∃ resp album_info assets items,
    transport one_album 0 (album_request hub0 "album-1") = Got resp
    ∧ status resp = 200 ∧ json_of resp = Got album_info
    ∧ subscript album_info "assets" = Ok assets ∧ iter assets = Ok items
    ∧ [image_asset "a"] = List.filter typed_image items
    ∧ Forall (λ a, ∃ t, subscript a "type" = Ok t) items
    ∧ trace (Hub.list_album_images one_album hub0 "album-1"
               (start ImmichImageFavorite)).2
      = EvRequest (album_request hub0 "album-1") :: [].
Proof.
  apply (list_album_images_returns_images one_album hub0 "album-1"
           (start ImmichImageFavorite)
           (Hub.list_album_images one_album hub0 "album-1"
              (start ImmichImageFavorite)).2 [image_asset "a"]).
  reflexivity.
Defined.

Lemma comprehension_key_error (items : list json) :
  Forall (λ a, isinstance_dict a = true) items →
  Exists (λ a, ∃ d, a = JObj d ∧ dict_get "type" d = None) items →
  comprehension Hub.is_image items = Raise KeyError.
Proof.
  induction 1 as [|a rest Ha HF IH]; [by inversion 1|].
  intros Hex. simpl. unfold mbind, result_bind, rbind.
  destruct a as [| | | | |d]; try done.
  unfold Hub.is_image at 1, mbind, result_bind, rbind. cbn [subscript].
  destruct (dict_get "type" d) as [t|] eqn:Et; [|done].
  apply Exists_cons in Hex as [(d' & [= <-] & Hn) | Hex]; [congruence|].
  by rewrite (IH Hex).
Qed.

(** X9. [list_album_images] is strict about keys: answered with status 200
    and a JSON object, it raises [KeyError] when the object has no [assets],
    and when [assets] is a list of objects one of which has no [type]. *)
Theorem list_album_images_missing_key
  (W : world) (h : ImmichHub) (album_id : string) (s : sys) (resp : response)
  (d : pydict) :
  transport W (requests s) (album_request h album_id) = Got resp →
  status resp = 200 → json_of resp = Got (JObj d) →
  dict_get "assets" d = None
  ∨ (∃ items, dict_get "assets" d = Some (JList items)
              ∧ Forall (λ a, isinstance_dict a = true) items
              ∧ Exists (λ a, ∃ da, a = JObj da ∧ dict_get "type" da = None) items) →
  (Hub.list_album_images W h album_id s).1 = Raise KeyError.
Proof.
  intros Et Hst Ej Hkey.
  unfold Hub.list_album_images, except_ClientError, send.
  unfold mbind at 1, M_bind at 1. unfold album_request in Et.
  rewrite Et. rewrite bool_decide_eq_false_2 by (by intros []).
  unfold mbind at 1, M_bind at 1. unfold await. rewrite Ej.
  unfold lift, mbind, M_bind. cbn [subscript].
  destruct Hkey as [-> | (items & -> & HF & Hex)]; [done|].
  unfold Hub.filtered_assets, mbind, result_bind, rbind. cbn [iter].
  by rewrite (comprehension_key_error items HF Hex).
Qed.

Lemma list_album_images_missing_key_witness :
  let s0 := start ImmichImageFavorite in
  (Hub.list_album_images (answering (JObj [("id", JStr "album-1")])) hub0
     "album-1" s0).1 = Raise KeyError
  ∧ (Hub.list_album_images
       (answering (JObj [("assets", JList [image_asset "a";
                                           JObj [("id", JStr "b")]])]))
       hub0 "album-1" s0).1 = Raise KeyError.
Proof.
  intros s0. split.
  - apply (list_album_images_missing_key
             (answering (JObj [("id", JStr "album-1")])) hub0 "album-1" s0
             (ok_json (JObj [("id", JStr "album-1")])) _ eq_refl eq_refl eq_refl).
    by left.
  - apply (list_album_images_missing_key
             (answering (JObj [("assets", JList [image_asset "a";
                                                 JObj [("id", JStr "b")]])]))
             hub0 "album-1" s0 (ok_json _) _ eq_refl eq_refl eq_refl).
    right. eexists. split; [reflexivity|]. split.
    + by repeat constructor.
    + apply Exists_cons_tl, Exists_cons_hd. by eexists.
Defined.

(** X10. When the refresh of the favourites entity returns, it has sent the
    one request [isFavorite=true] to the metadata search, answered with
    status 200, and returns the ids of the entries of [assets.items] whose
    [type] is IMAGE: one id an entry, in the order of the answer. *)
Theorem favorite_refresh_returns_favorite_ids
  (W : world) (s s' : sys) (r : option (list string)) :
  class_of (self s) = ImmichImageFavorite →
  _refresh_available_asset_ids W s = (Ok r, s') →
  ∃ resp favorites assets items ids,
    transport W (requests s) (favorites_request (hub (self s))) = Got resp
    ∧ status resp = 200 ∧ json_of resp = Got favorites
    ∧ (a ← subscript favorites "assets"; subscript a "items") = Ok assets
    ∧ iter assets = Ok items
    ∧ r = Some ids
    ∧ Forall2 (λ a i, id_of a = Ok i) (List.filter typed_image items) ids
    ∧ trace s' = EvRequest (favorites_request (hub (self s))) :: trace s.
Proof.
  intros Hc. unfold _refresh_available_asset_ids, get_self.
  unfold mbind at 1, M_bind at 1. rewrite Hc.
  unfold ImmichImageFavorite_refresh_available_asset_ids, get_self.
  unfold mbind at 1, M_bind at 1. intros E.
  apply bind_inv in E as (images & s1 & El & E).
  apply bind_inv in E as (ids & s2 & [Eids ->]%lift_inv & [= <- <-]).
  unfold Hub.list_favorite_images in El. apply except_ok_inv in El.
  apply bind_inv in El as (resp & s2 & Es & El).
  apply send_ok_inv in Es as (Et & _ & Htr).
  case_bool_decide as Hst.
  { apply bind_inv in El as (? & s3 & _ & El).
    apply bind_inv in El as ([] & s4 & _ & El). discriminate El. }
  apply bind_inv in El as (favorites & s3 & [Ej ->]%await_inv & El).
  apply bind_inv in El as (assets & s4 & [Ea ->]%lift_inv & [Ef ->]%lift_inv).
  apply filtered_assets_ok in Ef as (items & Ei & -> & HF).
  exists resp, favorites, assets, items, ids.
  split; [exact Et|]. split; [by destruct (decide (status resp = 200))|].
  repeat (split; [done|]). split; [by apply for_each_ok | exact Htr].
Qed.

Lemma favorite_refresh_returns_favorite_ids_witness :
  ∃ resp favorites assets items ids,
    transport two_favorites 0 (favorites_request hub0) = Got resp
    ∧ status resp = 200 ∧ json_of resp = Got favorites
    ∧ (a ← subscript favorites "assets"; subscript a "items") = Ok assets
    ∧ iter assets = Ok items
    ∧ Some ["a"; "b"] = Some ids
    ∧ Forall2 (λ a i, id_of a = Ok i) (List.filter typed_image items) ids
    ∧ trace (_refresh_available_asset_ids two_favorites
               (start ImmichImageFavorite)).2
      = EvRequest (favorites_request hub0) :: [].
Proof.
  apply (favorite_refresh_returns_favorite_ids two_favorites
           (start ImmichImageFavorite)
           (_refresh_available_asset_ids two_favorites
              (start ImmichImageFavorite)).2 (Some ["a"; "b"]));
    reflexivity.
Defined.

(** ** The person list of a search entity *)

Lemma load_when_next_raises (W : world) (s s' : sys) (e : exn) (turns : nat) :
  _get_next_asset_id W s = (Raise e, s') →
  _load_and_cache_next_image W (S turns) s = (Raise e, s').
Proof.
  intros E. simpl. unfold load_turn.
  unfold mbind at 1, M_bind at 1. unfold mbind at 1, M_bind at 1.
  by rewrite E.
Qed.

Lemma load_when_next_none (W : world) (s s' : sys) (turns : nat) :
  _get_next_asset_id W s = (Ok None, s') →
  _load_and_cache_next_image W (S turns) s = (Ok Finished, s').
Proof.
  intros E. simpl. unfold load_turn.
  unfold mbind at 1, M_bind at 1. unfold mbind at 1, M_bind at 1.
  by rewrite E.
Qed.

Lemma at_refresh_unset (W : world) (s : sys) :
  stamp s = None →
  at_refresh W s = (log DEBUG "Refreshing available asset IDs" s).2.
Proof.
  intros Hst. unfold at_refresh.
  by rewrite (bind_ok _ _ _ _ _ (is_stale_unset W s Hst)).
Qed.

(** X11. A search entity whose payload has no [personIds] cannot refresh: the
    refresh raises [KeyError] before anything is requested, and so does its
    first update. *)
Theorem search_refresh_without_person_ids
  (W : world) (s : sys) (payload : pydict) (unique_id name : string)
  (turns : nat) :
  class_of (self s) = ImmichImageSearch payload unique_id name →
  dict_get "personIds" payload = None →
  _refresh_available_asset_ids W s = (Raise KeyError, s)
  ∧ (stamp s = None →
     (_load_and_cache_next_image W (S turns) s).1 = Raise KeyError
     ∧ requests (_load_and_cache_next_image W (S turns) s).2 = requests s).
Proof.
  intros Hc Hp.
  assert (∀ s0, class_of (self s0) = ImmichImageSearch payload unique_id name →
            _refresh_available_asset_ids W s0 = (Raise KeyError, s0)) as Href.
  { intros s0 Hc0. unfold _refresh_available_asset_ids, get_self.
    unfold mbind at 1, M_bind at 1. rewrite Hc0.
    unfold ImmichImageSearch_refresh_available_asset_ids, get_self, lift.
    unfold mbind at 1 2, M_bind at 1 2. cbn [subscript]. by rewrite Hp. }
  split; [by apply Href|]. intros Hst.
  assert (stale W s) as Hstale by (by left).
  rewrite (load_when_next_raises W s (at_refresh W s) KeyError turns).
  - by rewrite (at_refresh_unset W s Hst).
  - apply (get_next_stale_raise W s _ KeyError Hstale). apply Href.
    by rewrite (at_refresh_unset W s Hst).
Qed.

Lemma search_refresh_without_person_ids_witness :
  let s0 := start (ImmichImageSearch [("type", JStr "IMAGE")] "u" "n") in
  _refresh_available_asset_ids two_people s0 = (Raise KeyError, s0)
  ∧ (_load_and_cache_next_image two_people 1 s0).1 = Raise KeyError.
Proof.
  intros s0.
  destruct (search_refresh_without_person_ids two_people s0
              [("type", JStr "IMAGE")] "u" "n" 0 eq_refl eq_refl) as [H1 H2].
  split; [exact H1 | exact (proj1 (H2 eq_refl))].
Defined.

(** X12. A search entity with an empty list of persons refreshes without a
    request: its pool is the empty list, so its update returns at once and
    shows no image. *)
Theorem search_refresh_of_empty_person_list
  (W : world) (s : sys) (payload : pydict) (unique_id name : string)
  (turns : nat) :
  class_of (self s) = ImmichImageSearch payload unique_id name →
  dict_get "personIds" payload = Some (JList []) →
  (_refresh_available_asset_ids W s).1 = Ok (Some [])
  ∧ requests (_refresh_available_asset_ids W s).2 = requests s
  ∧ (stamp s = None →
     (_load_and_cache_next_image W (S turns) s).1 = Ok Finished
     ∧ requests (_load_and_cache_next_image W (S turns) s).2 = requests s
     ∧ displayed (self (_load_and_cache_next_image W (S turns) s).2)
       = displayed (self s)).
Proof.
  intros Hc Hp.
  assert (∀ s0, class_of (self s0) = ImmichImageSearch payload unique_id name →
            _refresh_available_asset_ids W s0 =
              (Ok (Some []),
               (log DEBUG "OR-search found %s unique assets" s0).2)) as Href.
  { intros s0 Hc0. unfold _refresh_available_asset_ids, get_self.
    unfold mbind at 1, M_bind at 1. rewrite Hc0.
    by rewrite (fan_out_unfold W s0 payload [] Hp). }
  rewrite (Href s Hc). split; [done|]. split; [done|]. intros Hst.
  assert (stale W s) as Hstale by (by left).
  pose proof (get_next_stale_ok W s _ (Some []) Hstale
                (Href (at_refresh W s)
                   ltac:(by rewrite (at_refresh_unset W s Hst)))) as En.
  rewrite (at_refresh_unset W s Hst) in En.
  rewrite (load_when_next_none W s _ turns En). done.
Qed.

Lemma search_refresh_of_empty_person_list_witness :
  let s0 := start (ImmichImageSearch [("personIds", JList [])] "u" "n") in
  (_refresh_available_asset_ids unreachable s0).1 = Ok (Some [])
  ∧ (_load_and_cache_next_image unreachable 1 s0).1 = Ok Finished.
Proof.
  intros s0.
  destruct (search_refresh_of_empty_person_list unreachable s0
              [("personIds", JList [])] "u" "n" 0 eq_refl eq_refl)
    as (H1 & _ & H2).
  split; [exact H1 | exact (proj1 (H2 eq_refl))].
Defined.

Lemma search_images_sends_once
  (W : world) (h : ImmichHub) (payload : pydict) (s : sys) :
  requests_of (trace (Hub.search_images W h payload s).2)
    = Hub.search_request h payload :: requests_of (trace s)
  ∧ requests (Hub.search_images W h payload s).2 = S (requests s)
  ∧ self (Hub.search_images W h payload s).2 = self s.
Proof.
  unfold Hub.search_images, log, emit, send, await, lift, raise,
    mbind, M_bind, mret, M_ret.
  cbn [requests trace self].
  destruct (transport W (requests s) _) as [resp|f]; [|done].
  case_bool_decide; [by destruct (text resp)|].
  destruct (json_of resp) as [data|]; [|done].
  by destruct (Hub.select_images data) as [[l|]|].
Qed.

Lemma run_all_requests
  (W : world) (h : ImmichHub) (payload : pydict) (pids : list json) (s : sys) :
  requests_of
    (trace (run_all (_one W h (dict_without "personIds" payload) <$> pids) s).2)
    = (rev ((λ pid, Hub.search_request h (payload_for payload pid)) <$> pids)
       ++ requests_of (trace s))%list
  ∧ requests (run_all (_one W h (dict_without "personIds" payload) <$> pids) s).2
    = (requests s + length pids)%nat.
Proof.
  revert s. induction pids as [|pid pids IH]; intros s; simpl.
  - split; [done | lia].
  - unfold _one at 1 3.
    destruct (search_images_sends_once W h (payload_for payload pid) s)
      as (Htr & Hn & _).
    unfold payload_for in Htr, Hn at 1.
    destruct (Hub.search_images W h _ s) as [r s2]. simpl in Htr, Hn.
    destruct (IH s2) as [H1 H2].
    destruct (run_all _ s2) as [outs s3]. simpl in *.
    rewrite H1, H2, Htr, Hn. split; [|lia].
    by rewrite <- app_assoc.
Qed.

Lemma gather_requests
  (W : world) (h : ImmichHub) (payload : pydict) (pids : list json)
  (s s1 : sys) (rs : list (list json)) :
  gather W (_one W h (dict_without "personIds" payload) <$> pids) s = (Ok rs, s1) →
  requests_of (trace s1)
    = (rev ((λ pid, Hub.search_request h (payload_for payload pid)) <$> pids)
       ++ requests_of (trace s))%list
  ∧ requests s1 = (requests s + length pids)%nat.
Proof.
  intros E. apply gather_ok_inv in E.
  pose proof (run_all_requests W h payload pids s) as H.
  by rewrite E in H.
Qed.

(** X13. A fan-out refresh that returns has sent one search request a person
    id, in the order of the list and with its repetitions, each for the
    payload of that one person, and no other request. *)
Theorem fan_out_sends_one_request_per_person
  (W : world) (s s' : sys) (payload : pydict) (person_ids : list json)
  (r : option (list string)) :
  dict_get "personIds" payload = Some (JList person_ids) →
  ImmichImageSearch_refresh_available_asset_ids W payload s = (Ok r, s') →
  requests_of (trace s')
    = (rev ((λ pid, Hub.search_request (hub (self s)) (payload_for payload pid))
              <$> person_ids)
       ++ requests_of (trace s))%list
  ∧ requests s' = (requests s + length person_ids)%nat.
Proof.
  intros Hp. rewrite (fan_out_unfold W s payload person_ids Hp).
  destruct (gather W _ s) as [[results|e] s1] eqn:Eg; [|done].
  destruct (update_all ∅ results) as [all_ids|e]; [|done].
  intros [= _ <-]. by apply gather_requests in Eg.
Qed.

Lemma fan_out_sends_one_request_per_person_witness :
  let s0 := start (ImmichImageSearch people_payload "search_people_of_interest"
                     "Immich: People of Interest") in
  let s' := (ImmichImageSearch_refresh_available_asset_ids two_people
               people_payload s0).2 in
  requests_of (trace s')
    = [Hub.search_request hub0 (payload_for people_payload (JStr "p2"));
       Hub.search_request hub0 (payload_for people_payload (JStr "p1"))]
  ∧ requests s' = 2%nat.
Proof.
  intros s0 s'.
  apply (fan_out_sends_one_request_per_person two_people s0 s' people_payload
           [JStr "p1"; JStr "p2"]
           (Some (elements ({["x"; "y"; "z"]} : gset string))));
    [reflexivity | vm_compute; reflexivity].
Defined.

(** ** The candidate cache, once more *)

Lemma refresh_returns_list
  (W : world) (s s' : sys) (r : option (list string)) :
  _refresh_available_asset_ids W s = (Ok r, s') → ∃ ids, r = Some ids.
Proof.
  unfold _refresh_available_asset_ids. intros E.
  apply bind_inv in E as (e & s0 & _ & E).
  destruct (class_of e);
    unfold ImmichImageFavorite_refresh_available_asset_ids,
      BaseImmichImage_refresh_available_asset_ids,
      ImmichImageSearch_refresh_available_asset_ids in E;
    repeat (apply bind_inv in E as (? & ? & _ & E));
    unfold mret, M_ret in E; injection E as <- _; by eexists.
Qed.

(** X14. Although declared as returning a list or [None], the refresh of an
    entity never returns [None]: whenever it returns, it returns a list. *)
Theorem refresh_never_returns_none
  (W : world) (s s' : sys) (r : option (list string)) :
  _refresh_available_asset_ids W s = (Ok r, s') → ∃ ids, r = Some ids.
Proof. apply refresh_returns_list. Qed.

Lemma refresh_never_returns_none_witness :
  ∃ ids,
    (_refresh_available_asset_ids empty_library (start ImmichImageFavorite)).1
    = Ok (Some ids).
Proof.
  destruct (refresh_never_returns_none empty_library (start ImmichImageFavorite)
              (_refresh_available_asset_ids empty_library
                 (start ImmichImageFavorite)).2 (Some []) eq_refl) as [ids E].
  exists ids. by rewrite <- E.
Defined.

Lemma load_turn_eval (W : world) (s : sys) :
  load_turn W s =
    match _get_next_asset_id W s with
    | (Raise e, s1) => (Raise e, s1)
    | (Ok None, s1) | (Ok (Some ""), s1) => (Ok Returned, s1)
    | (Ok (Some asset_id), s1) =>
        match Hub.download_asset W (hub (self s1)) asset_id s1 with
        | (Raise e, s2) => (Raise e, s2)
        | (Ok None, s2) | (Ok (Some []), s2) => (Ok Continued, (sleep 1 s2).2)
        | (Ok (Some b), s2) =>
            match Hub.get_asset_info W (hub (self s1)) asset_id s2 with
            | (Raise e, s3) => (Raise e, s3)
            | (Ok (JObj d), s3) => (Ok Loaded, loaded_state W d b s3)
            | (Ok _, s3) => (Raise AttributeError, s3)
            end
        end
    end.
Proof.
  unfold load_turn, get_self. unfold mbind at 1, M_bind at 1.
  destruct (_get_next_asset_id W s) as [[[[|c i]|]|e] s1]; try done.
  unfold mbind at 1, M_bind at 1. unfold mbind at 1, M_bind at 1.
  destruct (Hub.download_asset W (hub (self s1)) (String c i) s1)
    as [[[[|b0 b]|]|e] s2]; try done.
  unfold mbind at 1, M_bind at 1.
  destruct (Hub.get_asset_info W (hub (self s1)) (String c i) s2)
    as [[v|e] s3]; [|done].
  by destruct v.
Qed.

Lemma get_next_cache_inv (W : world) (s : sys) :
  cache_inv s → cache_inv (_get_next_asset_id W s).2.
Proof.
  intros Hinv.
  assert (∀ s0, cache_inv s0 → cache_inv (choose W s0).2) as Hch.
  { intros s0 H0. destruct (choose_frame W s0) as (r & _ & Hs & _).
    unfold cache_inv, stamp, pool in *. by rewrite Hs. }
  destruct (fresh_or_stale W s) as [Hf | Hst].
  - rewrite (get_next_fresh W s Hf). by apply Hch.
  - destruct (frames_refresh W (at_refresh W s)) as [Hself _].
    assert (self (at_refresh W s) = self s) as Hat.
    { unfold at_refresh. destruct (is_stale_stale W s Hst) as (s0 & E0 & Hs0 & _).
      by rewrite (bind_ok _ _ _ _ _ E0). }
    destruct (_refresh_available_asset_ids W (at_refresh W s))
      as [[r|e] s2] eqn:Er; simpl in Hself.
    + rewrite (get_next_stale_ok W s s2 r Hst Er). apply Hch.
      destruct (refresh_returns_list W _ _ _ Er) as [ids ->].
      right. by exists ids.
    + rewrite (get_next_stale_raise W s s2 e Hst Er). simpl.
      unfold cache_inv, stamp, pool in *. by rewrite <- Hself, Hat.
Qed.

Lemma load_turn_view (W : world) (s : sys) :
  match load_turn W s with
  | (Ok Loaded, s') =>
      ∃ b d s3, b ≠ [] ∧ s' = loaded_state W d b s3
                ∧ same_view (self s) (self s3) ∧ same_cache (self s3) (self s')
  | (_, s') =>
      same_view (self s) (self s')
      ∧ same_cache (self (_get_next_asset_id W s).2) (self s')
  end
  ∧ (cache_inv s → cache_inv (load_turn W s).2).
Proof.
  pose proof (get_next_cache_inv W s) as Hinv.
  rewrite load_turn_eval.
  destruct (frames_get_next W s) as [Hv1 _].
  destruct (_get_next_asset_id W s) as [[[[|c i]|]|e] s1]; simpl in Hv1, Hinv;
    try done.
  destruct (frames_download_asset W (hub (self s1)) (String c i) s1) as [He2 _].
  destruct (Hub.download_asset W (hub (self s1)) (String c i) s1)
    as [[[[|b0 b]|]|e] s2]; simpl in He2;
    try (unfold cache_inv, stamp, pool in *; simpl; by rewrite <- He2).
  destruct (frames_get_asset_info W (hub (self s1)) (String c i) s2) as [He3 _].
  destruct (Hub.get_asset_info W (hub (self s1)) (String c i) s2)
    as [[v|e] s3]; simpl in He3;
    [|unfold cache_inv, stamp, pool in *; simpl; by rewrite <- He3, <- He2].
  destruct v as [| | | | |d];
    try (unfold cache_inv, stamp, pool in *; simpl; by rewrite <- He3, <- He2).
  split.
  - exists (b0 :: b), d, s3. split; [done|]. split; [done|].
    split; [by rewrite <- He3, <- He2 | done].
  - unfold cache_inv, stamp, pool in *. simpl. by rewrite <- He3, <- He2.
Qed.

Lemma load_view (W : world) (turns : nat) (s : sys) :
  match _load_and_cache_next_image W turns s with
  | (Ok Finished, s') =>
      same_view (self s) (self s')
      ∨ ∃ b d s3, b ≠ [] ∧ s' = loaded_state W d b s3
                  ∧ same_view (self s) (self s3)
  | (_, s') => same_view (self s) (self s')
  end
  ∧ (cache_inv s → cache_inv (_load_and_cache_next_image W turns s).2).
Proof.
  revert s. induction turns as [|turns IH]; intros s; [done|].
  simpl. unfold mbind, M_bind.
  destruct (load_turn_view W s) as [Hv Hc].
  destruct (load_turn W s) as [[[]|e] s1]; simpl in Hc;
    unfold mret, M_ret; cbn [fst snd].
  - destruct Hv as [Hv _]. split; [by left | done].
  - destruct Hv as [Hv _]. destruct (IH s1) as [Hv1 Hc1].
    split; [|by intros ?; apply Hc1, Hc].
    destruct (_load_and_cache_next_image W turns s1) as [[[]|e] s'].
    + destruct Hv1 as [Hv1 | (b & d & s3 & Hb & -> & Hv3)].
      * left. by etrans.
      * right. exists b, d, s3. split; [done|]. split; [done|]. by etrans.
    + by etrans.
    + by etrans.
  - destruct Hv as (b & d & s3 & Hb & -> & Hv3 & _).
    split; [|done]. right. by exists b, d, s3.
  - by destruct Hv as [Hv _].
Qed.

(** X15. The candidate cache is populated whenever it is stamped: if that
    holds before a selection or an update, it holds after it, whether the
    call returns, raises, or is still retrying. *)
Theorem cache_is_populated_when_stamped (W : world) (s : sys) :
  cache_inv s →
  cache_inv (_get_next_asset_id W s).2
  ∧ ∀ turns, cache_inv (_load_and_cache_next_image W turns s).2.
Proof.
  intros Hinv. split; [by apply get_next_cache_inv|].
  intros turns. by apply (load_view W turns s).
Qed.

Lemma cache_is_populated_when_stamped_witness :
  cache_inv (_get_next_asset_id photo_server (start ImmichImageFavorite)).2
  ∧ ∀ turns,
      cache_inv (_load_and_cache_next_image dead_links turns
                   (start ImmichImageFavorite)).2.
Proof.
  split.
  - apply (cache_is_populated_when_stamped photo_server
             (start ImmichImageFavorite)). by left.
  - apply (cache_is_populated_when_stamped dead_links
             (start ImmichImageFavorite)). by left.
Defined.

(** X16. An update shows a new image entirely or not at all. Whatever the
    number of turns and however it ends, the class and the hub of the entity
    are what they were; image, attributes and time of the update are what
    they were too, unless the update finished with a load, and then the
    image is not empty, the time is set, and the host was notified last. *)
Theorem update_is_atomic (W : world) (turns : nat) (s : sys) :
  let r := (_load_and_cache_next_image W turns s).1 in
  let s' := (_load_and_cache_next_image W turns s).2 in
  class_of (self s') = class_of (self s)
  ∧ hub (self s') = hub (self s)
  ∧ (displayed (self s') = displayed (self s)
     ∨ (r = Ok Finished
        ∧ ∃ b t tr, b ≠ []
            ∧ _current_image_bytes (self s') = Some b
            ∧ _attr_image_last_updated (self s') = Some t
            ∧ trace s' = EvWriteState :: tr)).
Proof.
  cbn zeta. destruct (load_view W turns s) as [Hv _].
  destruct (_load_and_cache_next_image W turns s) as [[[]|e] s'];
    simpl; try (destruct Hv as (? & ? & ?); by auto).
  destruct Hv as [(? & ? & ?) | (b & d & s3 & Hb & -> & Hc & Hh & _)];
    [by auto|].
  split; [done|]. split; [done|]. right. split; [done|].
  by exists b, (datetime_now W (clock_reads s3)), (trace s3).
Qed.

(** X17. After a load, the three attributes show the file name, the EXIF
    data and the local time of the metadata, each replaced by the empty
    string when the field is missing or falsy; every other attribute keeps
    its value; the time of the update is the reading of the clock that
    follows the metadata, and the notification of the host comes last. *)
Theorem loaded_attributes
  (W : world) (s s1 s2 s3 : sys) (asset_id : string) (b : bytes) (d : pydict) :
  _get_next_asset_id W s = (Ok (Some asset_id), s1) → asset_id ≠ "" →
  Hub.download_asset W (hub (self s1)) asset_id s1 = (Ok (Some b), s2) → b ≠ [] →
  Hub.get_asset_info W (hub (self s1)) asset_id s2 = (Ok (JObj d), s3) →
  let attrs := _attr_extra_state_attributes (self (load_turn W s).2) in
  attrs !! "media_filename" = Some (shown d "originalFileName")
  ∧ attrs !! "media_exif" = Some (shown d "exifInfo")
  ∧ attrs !! "media_localdatetime" = Some (shown d "localDateTime")
  ∧ (∀ k, k ∉ ["media_filename"; "media_exif"; "media_localdatetime"] →
          attrs !! k = _attr_extra_state_attributes (self s) !! k)
  ∧ _attr_image_last_updated (self (load_turn W s).2)
    = Some (datetime_now W (clock_reads s3))
  ∧ trace (load_turn W s).2 = EvWriteState :: trace s3.
Proof.
  intros En Hid Ed Hb Ei. cbn zeta. rewrite load_turn_eval, En.
  destruct asset_id as [|c i]; [done|]. rewrite Ed.
  destruct b as [|b0 b]; [done|]. rewrite Ei.
  destruct (frames_get_next W s) as [(_ & _ & Hd1) _]. rewrite En in Hd1.
  destruct (frames_download_asset W (hub (self s1)) (String c i) s1) as [He2 _].
  rewrite Ed in He2.
  destruct (frames_get_asset_info W (hub (self s1)) (String c i) s2) as [He3 _].
  rewrite Ei in He3. simpl in Hd1, He2, He3.
  assert (_attr_extra_state_attributes (self s3)
          = _attr_extra_state_attributes (self s)) as Ha.
  { rewrite <- He3, <- He2. unfold displayed in Hd1. by injection Hd1. }
  assert (∀ f, or_empty (default JNull (dict_get f d)) = shown d f) as Hshown.
  { intros f. unfold shown, or_empty. by destruct (dict_get f d). }
  cbn [snd loaded_state self set_image_stamp set_image set_attribute
       _attr_extra_state_attributes _attr_image_last_updated trace].
  rewrite !Hshown, Ha. repeat split.
  - by rewrite lookup_insert_ne, lookup_insert_ne, lookup_insert_eq.
  - by rewrite lookup_insert_ne, lookup_insert_eq.
  - by rewrite lookup_insert_eq.
  - intros k Hk. rewrite !not_elem_of_cons in Hk. destruct Hk as (? & ? & ? & _).
    by rewrite !lookup_insert_ne.
Qed.

Lemma loaded_attributes_witness :
  let s0 := start ImmichImageFavorite in
  let attrs :=
    _attr_extra_state_attributes (self (load_turn photo_server s0).2) in
  attrs !! "media_filename" = Some (JStr "x.jpg")
  ∧ attrs !! "media_exif" = Some (JStr "")
  ∧ attrs !! "media_localdatetime" = Some (JStr "").
Proof.
  intros s0 attrs.
  destruct (loaded_attributes photo_server s0
              (_get_next_asset_id photo_server s0).2
              (Hub.download_asset photo_server hub0 "a"
                 (_get_next_asset_id photo_server s0).2).2
              (Hub.get_asset_info photo_server hub0 "a"
                 (Hub.download_asset photo_server hub0 "a"
                    (_get_next_asset_id photo_server s0).2).2).2
              "a" jpeg [("originalFileName", JStr "x.jpg")])
    as (H1 & H2 & H3 & _);
    [reflexivity | discriminate | reflexivity | by unfold jpeg | reflexivity |].
  split; [exact H1 | split; [exact H2 | exact H3]].
Defined.

(** ** The current image *)

(** X18. [async_image] with an image at hand returns it and does nothing
    else. In any case, what it returns is the image the entity holds when it
    returns: the one it held before, or one loaded in this call, which is
    not empty. *)
Theorem async_image_returns_current (W : world) (turns : nat) (s : sys) :
  (∀ b, _current_image_bytes (self s) = Some b → b ≠ [] →
        async_image W turns s = (Ok (Some (Some b)), s))
  ∧ (∀ r s', async_image W turns s = (Ok (Some r), s') →
       r = _current_image_bytes (self s')
       ∧ (r = _current_image_bytes (self s) ∨ ∃ b, r = Some b ∧ b ≠ [])).
Proof.
  split.
  - intros b E Hb. unfold async_image, get_self.
    unfold mbind at 1, M_bind at 1. rewrite E.
    destruct b as [|b0 b]; [done|].
    unfold mbind, M_bind, mret, M_ret. by rewrite E.
  - intros r s' E. unfold async_image in E.
    apply bind_inv in E as (e & s0 & [= <- <-] & E).
    apply bind_inv in E as (fin & s1 & El & E).
    destruct fin; [|discriminate E].
    apply bind_inv in E as (e' & s2 & [= <- <-] & [= <- <-]).
    split; [done|].
    assert (s1 = s ∨ _load_and_cache_next_image W turns s = (Ok Finished, s1))
      as [-> | El'].
    { destruct (_current_image_bytes (self s)) as [[|b0 b]|]; auto.
      left. by injection El. }
    { by left. }
    destruct (load_view W turns s) as [Hv _]. rewrite El' in Hv.
    destruct Hv as [(_ & _ & Hd) | (b & d & s3 & Hb & -> & _)].
    + left. unfold displayed in Hd. by injection Hd.
    + right. by exists b.
Qed.

Lemma async_image_returns_current_witness :
  let s0 := start ImmichImageFavorite in
  let s1 := (async_image photo_server 1 s0).2 in
  (async_image photo_server 1 s0).1 = Ok (Some (Some jpeg))
  ∧ async_image unreachable 1 s1 = (Ok (Some (Some jpeg)), s1).
Proof.
  intros s0 s1. split; [reflexivity|].
  apply (proj1 (async_image_returns_current unreachable 1 s1) jpeg);
    [reflexivity | by unfold jpeg].
Defined.

(** ** Setting the platform up *)

Lemma album_entities_ok
  (h : ImmichHub) (watched : list string) (items : list json)
  (batch : list construction) :
  album_entities h watched items = Ok batch →
  omap constructed_album batch
    = List.filter (λ i, bool_decide (i ∈ watched)) (omap album_id_of items)
  ∧ Forall (λ c, ∃ album i n,
        album ∈ items ∧ subscript album "id" = Ok (JStr i)
        ∧ subscript album "albumName" = Ok n ∧ i ∈ watched
        ∧ c = NewAlbum h i n) batch.
Proof.
  revert batch. induction items as [|album rest IH]; intros batch; simpl.
  - by intros [= <-].
  - unfold mbind, result_bind, rbind, album_id_of at 1.
    destruct (subscript album "id") as [id|] eqn:Eid; [|done].
    assert (∀ batch', album_entities h watched rest = Ok batch' →
              omap constructed_album batch'
                = List.filter (λ i, bool_decide (i ∈ watched))
                    (omap album_id_of rest)
              ∧ Forall (λ c, ∃ album0 i n,
                    album0 ∈ album :: rest ∧ subscript album0 "id" = Ok (JStr i)
                    ∧ subscript album0 "albumName" = Ok n ∧ i ∈ watched
                    ∧ c = NewAlbum h i n) batch') as Hrest.
    { intros batch' E. destruct (IH batch' E) as [H1 H2]. split; [done|].
      eapply Forall_impl; [exact H2|].
      intros c (a & i & n & Ha & ?). exists a, i, n. split; [|done].
      by apply list_elem_of_further. }
    destruct id as [| | |i| |]; try (by apply Hrest).
    simpl. case_bool_decide as Hin; [|by apply Hrest].
    destruct (subscript album "albumName") as [n|] eqn:En; [|done].
    destruct (album_entities h watched rest) as [batch'|]; [|done].
    intros [= <-]. destruct (Hrest batch' eq_refl) as [H1 H2].
    simpl. split; [f_equal; exact H1|]. constructor; [|done].
    exists album, i, n. split; [by apply list_elem_of_here | done].
Qed.

(** X19. When the setup succeeds, it has handed over three batches: the
    favourites entity, then the album entities, then the entity of the
    people search. The album entities are those of the server's albums whose
    id is among the watched ones, in the order of the server's list, each
    with the id and the name of its album; with no watched albums configured
    there is none. *)
Theorem setup_registers_watched_albums
  (W : world) (c : config_entry) (p p' : platform) :
  async_setup_entry W c p = (Ok (), p') →
  ∃ albums items batch,
    (Hub.list_all_albums W (hub_of c) (core p)).1 = Ok albums
    ∧ iter albums = Ok items
    ∧ added p' = [people_of_interest (hub_of c)] :: batch
                 :: [NewFavorite (hub_of c)] :: added p
    ∧ omap constructed_album batch
      = List.filter (λ i, bool_decide (i ∈ default [] (conf_watched_albums c)))
          (omap album_id_of items)
    ∧ Forall (λ e, ∃ album i n,
          album ∈ items ∧ subscript album "id" = Ok (JStr i)
          ∧ subscript album "albumName" = Ok n
          ∧ i ∈ default [] (conf_watched_albums c)
          ∧ e = NewAlbum (hub_of c) i n) batch.
Proof.
  unfold async_setup_entry, async_add_entities. cbn [core added].
  fold (hub_of c).
  destruct (Hub.list_all_albums W (hub_of c) (core p)) as [[albums|e] s1];
    [|done].
  unfold mbind, result_bind, rbind.
  destruct (iter albums) as [items|] eqn:Ei; [|done].
  destruct (album_entities _ _ items) as [batch|] eqn:Eb; [|done].
  intros [= <-]. exists albums, items, batch.
  apply album_entities_ok in Eb as [H1 H2]. done.
Qed.

Lemma setup_registers_watched_albums_witness :
  let c := {| conf_host := "http://immich.local:2283"; conf_api_key := "secret";
              conf_watched_albums := Some ["al-3"; "al-1"] |} in
  added (async_setup_entry (gatekeeper (refusal 401) three_albums) c
           fresh_platform).2
  = [[people_of_interest (hub_of c)];
     [NewAlbum (hub_of c) "al-1" (JStr "Holidays");
      NewAlbum (hub_of c) "al-3" (JStr "Pets")];
     [NewFavorite (hub_of c)]]
  ∧ ∃ albums items batch,
      (Hub.list_all_albums (gatekeeper (refusal 401) three_albums) (hub_of c)
         (core fresh_platform)).1 = Ok albums
      ∧ iter albums = Ok items
      ∧ added (async_setup_entry (gatekeeper (refusal 401) three_albums) c
                 fresh_platform).2
        = [people_of_interest (hub_of c)] :: batch
          :: [NewFavorite (hub_of c)] :: added fresh_platform
      ∧ omap constructed_album batch
        = List.filter (λ i, bool_decide (i ∈ default [] (conf_watched_albums c)))
            (omap album_id_of items)
      ∧ Forall (λ e, ∃ album i n,
            album ∈ items ∧ subscript album "id" = Ok (JStr i)
            ∧ subscript album "albumName" = Ok n
            ∧ i ∈ default [] (conf_watched_albums c)
            ∧ e = NewAlbum (hub_of c) i n) batch.
Proof.
  intros c. split; [reflexivity|].
  apply (setup_registers_watched_albums (gatekeeper (refusal 401) three_albums)
           c fresh_platform).
  reflexivity.
Defined.

Lemma list_all_albums_sends_once (W : world) (h : ImmichHub) (s : sys) :
  requests_of (trace (Hub.list_all_albums W h s).2)
  = Hub.albums_request h :: requests_of (trace s).
Proof.
  unfold Hub.list_all_albums, except_ClientError, log, emit, send, await, lift,
    raise, mbind, M_bind, mret, M_ret.
  destruct (transport W (requests s) _) as [resp|[]]; [|done|done].
  case_bool_decide.
  - by destruct (text resp) as [?|[]].
  - by destruct (json_of resp) as [?|[]].
Qed.

(** X20. The setup hands the favourites entity over before it asks for the
    albums: when it fails, on the request or on the list of albums, the
    favourites entity is registered and nothing else; when it succeeds,
    three batches are. In either case it has sent one request, for the list
    of albums. *)
Theorem setup_registers_favorites_first
  (W : world) (c : config_entry) (p : platform) :
  match async_setup_entry W c p with
  | (Ok _, p') =>
      ∃ batch, added p' = [people_of_interest (hub_of c)] :: batch
                          :: [NewFavorite (hub_of c)] :: added p
  | (Raise _, p') => added p' = [NewFavorite (hub_of c)] :: added p
  end
  ∧ requests_of (trace (core (async_setup_entry W c p).2))
    = Hub.albums_request (hub_of c) :: requests_of (trace (core p)).
Proof.
  pose proof (list_all_albums_sends_once W (hub_of c) (core p)) as Hreq.
  unfold async_setup_entry, async_add_entities. cbn [core added].
  fold (hub_of c).
  destruct (Hub.list_all_albums W (hub_of c) (core p)) as [[albums|e] s1];
    [|done].
  destruct (items ← iter albums; album_entities _ _ items) as [batch|e];
    [|done].
  split; [by exists batch | done].
Qed.
